(** * quran-recite-bot: session state machine, locators and result mapping

    A shallow embedding of the Go sources of the bot:
    - [internal/domain]: states, session keys, ayah locators;
    - [internal/adapter/redis] (the FSM port over Redis);
    - [internal/application/service.go] (the [BotService] handlers);
    - [internal/adapter/telegram] (digit keyboard handlers, recordings list);
    - [internal/adapter/quranapi/client.go] ([SubmitRecording], [mapRecording]).

    Go strings are byte strings: they are [String.string] here, and the
    scanning functions of [fmt] and [strconv] work on their bytes
    ([list nat], each below 256). Go [int] is [Z]. *)

From Stdlib Require Import ZArith Lia Ascii Bool.
From stdpp Require Import base list strings gmap.

Local Open Scope Z_scope.

(* ================================================================== *)
(** ** Bytes of a Go string *)

Definition bytes_of (s : string) : list nat :=
  map nat_of_ascii (String.list_ascii_of_string s).

Definition string_of_bytes (l : list nat) : string :=
  String.string_of_list_ascii (map ascii_of_nat l).

Definition is_digit (c : nat) : bool := (48 <=? c)%nat && (c <=? 57)%nat.

(** Value of a run of decimal digits, most significant first. *)
Fixpoint digits_value_acc (acc : Z) (l : list nat) : Z :=
  match l with
  | [] => acc
  | c :: r => digits_value_acc (acc * 10 + Z.of_nat (c - 48)) r
  end.

Definition digits_value (l : list nat) : Z := digits_value_acc 0 l.

Definition int64_min : Z := - 2 ^ 63.
Definition int64_max : Z := 2 ^ 63 - 1.

Fixpoint is_prefixb (p l : list nat) : bool :=
  match p, l with
  | [], _ => true
  | x :: p', y :: l' => Nat.eqb x y && is_prefixb p' l'
  | _ :: _, [] => false
  end.

(* ================================================================== *)
(** ** [fmt.Sscanf(s, "%d", &n)]

    Go's [ss.scanInt] for verb [d]: [SkipSpace], [notEOF], an optional
    sign, then at least one decimal digit and every following one
    ([scanNumber]), then [strconv.ParseInt(tok, 10, 64)]. Any error
    panics inside the scanner and is returned by [Sscanf] before the
    destination is assigned: [None] below. Input after the number is
    left unread, which is not an error. *)

(** The runes for which [fmt]'s [isSpace] holds, as UTF-8 byte
    sequences, apart from ['\n'] which [SkipSpace] rejects in [Sscanf]. *)
Definition go_space_seqs : list (list nat) :=
  [[9%nat]; [11%nat]; [12%nat]; [13%nat]; [32%nat];
   [194%nat; 133%nat]; [194%nat; 160%nat];
   [225%nat; 154%nat; 128%nat]] ++
  map (fun k => [226%nat; 128%nat; k]) (seq 128 11) ++
  [[226%nat; 128%nat; 168%nat]; [226%nat; 128%nat; 169%nat];
   [226%nat; 128%nat; 175%nat]; [226%nat; 129%nat; 159%nat];
   [227%nat; 128%nat; 128%nat]].

(** [ss.SkipSpace]: ["\r\n"] is read as ["\n"], a newline is an error
    ("unexpected newline"), spaces are skipped. *)
Fixpoint skip_space (fuel : nat) (l : list nat) : option (list nat) :=
  match fuel with
  | O => Some l
  | S f =>
      match l with
      | [] => Some []
      | 13%nat :: 10%nat :: r => skip_space f (10%nat :: r)
      | 10%nat :: _ => None
      | _ =>
          match List.find (fun sp => is_prefixb sp l) go_space_seqs with
          | Some sp => skip_space f (drop (length sp) l)
          | None => Some l
          end
      end
  end.

Fixpoint take_while_digits (l : list nat) : list nat :=
  match l with
  | c :: r => if is_digit c then c :: take_while_digits r else []
  | [] => []
  end.

(** [s.accept(sign)]: an optional ['+'] or ['-']. *)
Definition accept_sign (l : list nat) : bool * list nat :=
  match l with
  | 43%nat :: r => (false, r)
  | 45%nat :: r => (true, r)
  | _ => (false, l)
  end.

Definition scan_int_d (l : list nat) : option Z :=
  match skip_space (length l) l with
  | None => None
  | Some [] => None (* notEOF *)
  | Some l1 =>
      let '(neg, l2) := accept_sign l1 in
      match take_while_digits l2 with
      | [] => None (* "expected integer" *)
      | ds =>
          let v := (if neg then -1 else 1) * digits_value ds in
          if (int64_min <=? v) && (v <=? int64_max) then Some v else None
      end
  end.

(* ================================================================== *)
(** ** Locators: [domain.FormatAyahID] and [Bot.parseAyahID] *)

(** Decimal digits of [n >= 0], most significant first. *)
Fixpoint dec_rev (fuel : nat) (n : Z) : list nat :=
  match fuel with
  | O => []
  | S f => (48 + Z.to_nat (n mod 10))%nat :: (if n <? 10 then [] else dec_rev f (n / 10))
  end.

Definition decimal (n : Z) : list nat := rev (dec_rev (S (Z.to_nat (Z.log2 n))) n).

Definition pad_zeros (w : nat) (l : list nat) : list nat :=
  replicate (w - length l) 48%nat ++ l.

(** Go's [fmt.Sprintf("%03d", z)]: width 3 counts the sign, zeros
    go after it. *)
Definition fmt_03d (z : Z) : list nat :=
  if z <? 0 then 45%nat :: pad_zeros 2 (decimal (- z)) else pad_zeros 3 (decimal z).

(** Modelled from the spec: [domain.FormatAyahID] is not among the
    sources (only its callers are). The spec's locator wire format is
    "six ASCII digits, first three = passage number (zero-padded), last
    three = sub-unit number (zero-padded)", i.e. [Sprintf("%03d%03d")]. *)
Definition FormatAyahID (surah ayah : Z) : string :=
  string_of_bytes (fmt_03d surah ++ fmt_03d ayah).

(** [Bot.parseAyahID]: wrong length gives [(0, 0)]; otherwise each half
    goes through [fmt.Sscanf(half, "%d", &n)], and a failed scan leaves
    the named result at its zero value. *)
Definition parseAyahID (ayahID : string) : Z * Z :=
  if negb (Nat.eqb (String.length ayahID) 6) then (0, 0)
  else (default 0 (scan_int_d (bytes_of (String.substring 0 3 ayahID))),
        default 0 (scan_int_d (bytes_of (String.substring 3 (String.length ayahID - 3) ayahID)))).

Example parse_001001 : parseAyahID "001001" = (1, 1).
Proof. reflexivity. Qed.
Example format_2_255 : FormatAyahID 2 255 = "002255".
Proof. reflexivity. Qed.
Example parse_mixed : parseAyahID "001x01" = (1, 0).
Proof. reflexivity. Qed.
Example parse_space : parseAyahID " 7-12a" = (7, 12).
Proof. reflexivity. Qed.
Example parse_sign : parseAyahID "-01+02" = (-1, 2).
Proof. reflexivity. Qed.
Example format_neg : FormatAyahID (-1) 0 = "-01000".
Proof. reflexivity. Qed.

(* ================================================================== *)
(** ** [strconv.Atoi] and [strconv.Itoa]

    [Atoi] returns Go's pair [(int, error)]: an optional sign and at
    least one digit, nothing else; a syntax error returns [0], a value
    outside [int64] returns the bound of its sign with [ErrRange]. *)

Definition Atoi (s : string) : Z * option string :=
  match bytes_of s with
  | [] => (0, Some "invalid syntax")
  | c :: r =>
      let '(neg, ds) :=
        if Nat.eqb c 45 then (true, r) else if Nat.eqb c 43 then (false, r)
        else (false, c :: r) in
      if Nat.eqb (length ds) 0 || negb (forallb is_digit ds) then (0, Some "invalid syntax")
      else
        let v := (if neg then -1 else 1) * digits_value ds in
        if v <? int64_min then (int64_min, Some "value out of range")
        else if int64_max <? v then (int64_max, Some "value out of range")
        else (v, None)
  end.

Definition Itoa (z : Z) : string :=
  string_of_bytes (if z <? 0 then 45%nat :: decimal (- z) else decimal z).

Example atoi_12 : Atoi "12" = (12, None).
Proof. reflexivity. Qed.
Example atoi_bad : Atoi "1a" = (0, Some "invalid syntax").
Proof. reflexivity. Qed.
Example itoa_atoi : Atoi (Itoa (-305)) = (-305, None).
Proof. reflexivity. Qed.

(* ================================================================== *)
(** ** Domain (internal/domain) *)

Definition State := string.
Definition StateStart : State := "start".
Definition StateSelectSurah : State := "select_surah".
Definition StateEnterAyah : State := "enter_ayah".
Definition StateWaitRecording : State := "wait_recording".
Definition StateWaitAutoDetect : State := "wait_auto_detect".
Definition StateProcessing : State := "processing".

Definition SessionKeySurah : string := "surah".
Definition SessionKeyAyah : string := "ayah".
Definition SessionKeyAyahInput : string := "ayah_input".
Definition SessionKeyLanguage : string := "language".

Definition Language := string.
Definition LangEnglish : Language := "en".

Record Surah := { Number : Z; Name : string; Ayahs : Z }.

(** A Go [float64] is only ever copied by the code below; it is kept as
    its IEEE-754 bit pattern ([math.Float64bits]). *)
Definition float64 := Z.

(** Go time values are only stored and compared; an abstract instant. *)
Definition GoTime := Z.
Definition zero_time : GoTime := 0.

(** A Go slice: [None] is the nil slice, [Some l] a non-nil one. *)
Definition slice (A : Type) := option (list A).
Definition len {A} (s : slice A) : nat := match s with None => 0%nat | Some l => length l end.
Definition elems {A} (s : slice A) : list A := default [] s.

Record DetectedRange := { StartAyah : string; EndAyah : string; TotalAyahs : Z }.

Record Statistics := {
  TotalWords : Z; Correct : Z; Substitutions : Z; Deletions : Z;
  Insertions : Z; WER : float64; Accuracy : float64 }.

Record AyahError := { Type_ : string; RefWord : string; HypWord : string; Position : Z }.

Record PerAyahResult := {
  pa_AyahID : string; pa_Surah : string; pa_Ayah : string; pa_Words : Z;
  pa_Correct : Z; pa_Substitutions : Z; pa_Deletions : Z; pa_Insertions : Z;
  pa_WER : float64; pa_ReferenceText : string; pa_Errors : slice AyahError }.

Record Operation := {
  RefAr : string; RefClean : string; HypAr : string; HypClean : string;
  Op : string; TStart : float64; TEnd : float64 }.

Record RecordingResult := {
  Status : string;
  DetectionMethod : string;
  StartingAyah : string;
  DetectionConfidence : string;
  Hypothesis_ : string;
  DetectedRange_ : option DetectedRange;
  OverallStatistics : option Statistics;
  PerAyahResults : slice PerAyahResult;
  ProcessingTime : float64;
  Error_ : string;
  Suggestion : string;
  Transcript : string;
  TranscriptLength : Z;
  rr_WER : float64;
  Ops : slice Operation }.

Record Recording := {
  ID : string; LearnerID : string; rec_AyahID : string; rec_Status : string;
  Result : option RecordingResult; CreatedAt : GoTime; UpdatedAt : GoTime }.

(* ================================================================== *)
(** ** Gateway wire types and [mapRecording] (adapter/quranapi/client.go)

    The decoded JSON of a recording. A JSON array that is absent or
    [null] decodes to a nil slice, [[]] to a non-nil empty one; an
    absent object to a nil pointer ([None]). *)

Record detectedRangeResponse := {
  drr_StartAyah : string; drr_EndAyah : string; drr_TotalAyahs : Z }.

Record statisticsResponse := {
  sr_TotalWords : Z; sr_Correct : Z; sr_Substitutions : Z; sr_Deletions : Z;
  sr_Insertions : Z; sr_WER : float64; sr_Accuracy : float64 }.

Record ayahErrorResponse := {
  aer_Type : string; aer_RefWord : string; aer_HypWord : string; aer_Position : Z }.

Record perAyahResultResponse := {
  par_AyahID : string; par_Surah : string; par_Ayah : string; par_Words : Z;
  par_Correct : Z; par_Substitutions : Z; par_Deletions : Z; par_Insertions : Z;
  par_WER : float64; par_ReferenceText : string; par_Errors : slice ayahErrorResponse }.

Record opResponse := {
  opr_RefAr : string; opr_RefClean : string; opr_HypAr : string; opr_HypClean : string;
  opr_Op : string; opr_TStart : float64; opr_TEnd : float64 }.

Record resultResponse := {
  (* auto-detect fields *)
  r_Status : string;
  r_DetectionMethod : string;
  r_StartingAyah : string;
  r_DetectionConfidence : string;
  r_Hypothesis : string;
  r_DetectedRange : option detectedRangeResponse;
  r_OverallStatistics : option statisticsResponse;
  r_PerAyahResults : slice perAyahResultResponse;
  r_ProcessingTime : float64;
  r_Error : string;
  r_Suggestion : string;
  r_Transcript : string;
  r_TranscriptLength : Z;
  (* legacy fields *)
  r_WER : float64;
  r_Ops : slice opResponse }.

Record recordingResponse := {
  rr_RecordingID : string; rr_LearnerID : string; rr_AyahID : string;
  rr_Status : string; rr_CreatedAt : string; rr_UpdatedAt : string;
  rr_Result : option resultResponse; rr_Error : string }.

(** The loops of [mapRecording] that fill a slice made with
    [make(.., len(src))] only when [len(src) > 0]; otherwise the
    destination field keeps its zero value, the nil slice. *)
Definition map_nonempty {A B} (f : A -> B) (s : slice A) : slice B :=
  if Nat.ltb 0 (len s) then Some (map f (elems s)) else None.

Definition mapAyahError (e : ayahErrorResponse) : AyahError :=
  {| Type_ := aer_Type e; RefWord := aer_RefWord e; HypWord := aer_HypWord e;
     Position := aer_Position e |}.

Definition mapPerAyah (a : perAyahResultResponse) : PerAyahResult :=
  {| pa_AyahID := par_AyahID a; pa_Surah := par_Surah a; pa_Ayah := par_Ayah a;
     pa_Words := par_Words a; pa_Correct := par_Correct a;
     pa_Substitutions := par_Substitutions a; pa_Deletions := par_Deletions a;
     pa_Insertions := par_Insertions a; pa_WER := par_WER a;
     pa_ReferenceText := par_ReferenceText a;
     pa_Errors := map_nonempty mapAyahError (par_Errors a) |}.

Definition mapOp (op : opResponse) : Operation :=
  {| RefAr := opr_RefAr op; RefClean := opr_RefClean op; HypAr := opr_HypAr op;
     HypClean := opr_HypClean op; Op := opr_Op op; TStart := opr_TStart op;
     TEnd := opr_TEnd op |}.

Definition mapDetectedRange (d : detectedRangeResponse) : DetectedRange :=
  {| StartAyah := drr_StartAyah d; EndAyah := drr_EndAyah d; TotalAyahs := drr_TotalAyahs d |}.

Definition mapStatistics (s : statisticsResponse) : Statistics :=
  {| TotalWords := sr_TotalWords s; Correct := sr_Correct s;
     Substitutions := sr_Substitutions s; Deletions := sr_Deletions s;
     Insertions := sr_Insertions s; WER := sr_WER s; Accuracy := sr_Accuracy s |}.

Definition mapResult (r : resultResponse) : RecordingResult :=
  {| Status := r_Status r;
     DetectionMethod := r_DetectionMethod r;
     StartingAyah := r_StartingAyah r;
     DetectionConfidence := r_DetectionConfidence r;
     Hypothesis_ := r_Hypothesis r;
     DetectedRange_ := option_map mapDetectedRange (r_DetectedRange r);
     OverallStatistics := option_map mapStatistics (r_OverallStatistics r);
     PerAyahResults := map_nonempty mapPerAyah (r_PerAyahResults r);
     ProcessingTime := r_ProcessingTime r;
     Error_ := r_Error r;
     Suggestion := r_Suggestion r;
     Transcript := r_Transcript r;
     TranscriptLength := r_TranscriptLength r;
     rr_WER := r_WER r;
     Ops := map_nonempty mapOp (r_Ops r) |}.

Section Client.
(** [time.Parse(time.RFC3339, s)] with its error dropped: the zero
    time on failure. *)
Variable time_parse_rfc3339 : string -> GoTime.

Definition mapRecording (r : recordingResponse) : Recording :=
  {| ID := rr_RecordingID r;
     LearnerID := rr_LearnerID r;
     rec_AyahID := rr_AyahID r;
     rec_Status := rr_Status r;
     CreatedAt := if String.eqb (rr_CreatedAt r) "" then zero_time
                  else time_parse_rfc3339 (rr_CreatedAt r);
     UpdatedAt := if String.eqb (rr_UpdatedAt r) "" then zero_time
                  else time_parse_rfc3339 (rr_UpdatedAt r);
     Result := option_map mapResult (rr_Result r) |}.
End Client.

(* ================================================================== *)
(** ** The Redis-backed FSM port (adapter/redis) as a state monad

    Redis is one map from keys to string values. The 24 h TTL is not
    modelled: an expired key is simply an absent one, which is one of
    the stores the statements below quantify over. Every call to Redis
    is an I/O that may fail; which ones fail is an oracle [fault] on the
    index of the call, so that statements cover every failure pattern.
    A failed call changes nothing. *)

Inductive result (A : Type) : Type :=
| Ok (a : A)
| Err (msg : string).
Arguments Ok {A} a.
Arguments Err {A} msg.

Abbreviation Redis := (gmap string string).

Record World := { w_redis : Redis; w_tick : nat }.

Definition M (A : Type) : Type := World -> result A * World.

Global Instance M_ret : MRet M := fun A a w => (Ok a, w).
Global Instance M_bind : MBind M := fun A B k m w =>
  match m w with
  | (Ok a, w') => k a w'
  | (Err e, w') => (Err e, w')
  end.

Definition fail {A} (msg : string) : M A := fun w => (Err msg, w).

(** [fmt.Errorf("<ctx>: %w", err)] *)
Definition wrap {A} (ctx : string) (m : M A) : M A := fun w =>
  match m w with
  | (Err e, w') => (Err (ctx +:+ ": " +:+ e), w')
  | r => r
  end.

Definition lift {A} (r : result A) : M A := fun w => (r, w).

Definition stateKeyPrefix : string := "fsm:state:".
Definition dataKeyPrefix : string := "fsm:data:".

Definition state_key (userID : string) : string := stateKeyPrefix +:+ userID.
(** [fmt.Sprintf("%s%s:%s", dataKeyPrefix, userID, key)] *)
Definition data_key (userID key : string) : string :=
  dataKeyPrefix +:+ userID +:+ ":" +:+ key.

Section Service.
Variable fault : nat -> bool.

Definition redis_io {A} (f : Redis -> result A * Redis) : M A := fun w =>
  if fault (w_tick w) then (Err "redis: i/o error", {| w_redis := w_redis w; w_tick := S (w_tick w) |})
  else let '(r, m) := f (w_redis w) in (r, {| w_redis := m; w_tick := S (w_tick w) |}).

Definition SetState (userID : string) (st : State) : M unit :=
  redis_io (fun m => (Ok tt, <[state_key userID := st]> m)).

Definition GetState (userID : string) : M State :=
  redis_io (fun m => match m !! state_key userID with
                     | None => (Ok StateStart, m) (* redis.Nil *)
                     | Some v => (Ok v, m)
                     end).

Definition DeleteState (userID : string) : M unit :=
  redis_io (fun m => (Ok tt, delete (state_key userID) m)).

Definition SetData (userID key value : string) : M unit :=
  redis_io (fun m => (Ok tt, <[data_key userID key := value]> m)).

Definition GetData (userID key : string) : M string :=
  redis_io (fun m => match m !! data_key userID key with
                     | None => (Err "data not found", m)
                     | Some v => (Ok v, m)
                     end).

Definition DeleteData (userID key : string) : M unit :=
  redis_io (fun m => (Ok tt, delete (data_key userID key) m)).

(** *** The gateway ([quranapi.Client.SubmitRecording]) *)

Record submitResponse := {
  sub_RecordingID : string; sub_Status : string; sub_TaskID : string }.

(** What [httpClient.Do] gives back: a transport error (including the
    client's 30 s timeout), or a status code with a body that decodes
    ([Some]) or does not ([None]) as the submit response. *)
Inductive HttpOutcome :=
| NetError
| HttpResponse (code : Z) (body : option submitResponse).

Variable baseURL : string.
(** The gateway, as seen by the POST of the multipart form carrying
    the audio bytes. *)
Variable http_post : string -> list nat -> HttpOutcome.
Variable now : GoTime.

Definition SubmitRecording (learnerID ayahID : string) (audioData : list nat)
  : result Recording :=
  let url := baseURL +:+ "/recordings?learner_id=" +:+ learnerID +:+ "&ayah_id=" +:+ ayahID in
  match http_post url audioData with
  | NetError => Err "send request"
  | HttpResponse code body =>
      if negb (code =? 200) then Err "API error"
      else match body with
           | None => Err "decode response"
           | Some b => Ok {| ID := sub_RecordingID b; LearnerID := learnerID;
                             rec_AyahID := ayahID; rec_Status := sub_Status b;
                             Result := None; CreatedAt := now; UpdatedAt := zero_time |}
           end
  end.

(** *** [BotService] (application/service.go) *)

(** [domain.GetAllSurahs()]: the surah table is not among the sources;
    every statement below holds for any table. *)
Variable surahs : list Surah.

Definition HandleStart (userID : string) (lang : Language) : M unit :=
  _ ← wrap "set state" (SetState userID StateSelectSurah);
  wrap "set language" (SetData userID SessionKeyLanguage lang).

Definition GetCurrentState (userID : string) : M State := GetState userID.

Definition HandleSurahSelection (userID : string) (surahNumber : Z) : M unit :=
  if (surahNumber <? 1) || (Z.of_nat (length surahs) <? surahNumber)
  then fail "invalid surah number"
  else
    _ ← wrap "set surah" (SetData userID SessionKeySurah (Itoa surahNumber));
    wrap "set state" (SetState userID StateEnterAyah).

Definition HandleAyahInput (userID input : string) : M unit :=
  match Atoi input with
  | (_, Some _) => fail "invalid ayah number"
  | (ayahNumber, None) =>
      surahStr ← wrap "get surah" (GetData userID SessionKeySurah);
      match Atoi surahStr with
      | (_, Some e) => fail ("parse surah: " +:+ e)
      | (surahNumber, None) =>
          if (surahNumber <? 1) || (Z.of_nat (length surahs) <? surahNumber)
          then fail "invalid surah"
          else match surahs !! Z.to_nat (surahNumber - 1) with
               | None => fail "index out of range" (* unreachable *)
               | Some surah =>
                   if (ayahNumber <? 1) || (Ayahs surah <? ayahNumber)
                   then fail "invalid ayah number"
                   else
                     _ ← wrap "set ayah" (SetData userID SessionKeyAyah (Itoa ayahNumber));
                     wrap "set state" (SetState userID StateWaitRecording)
               end
      end
  end.

Definition HandleRecording (userID : string) (audioData : list nat) : M Recording :=
  surahStr ← wrap "get surah" (GetData userID SessionKeySurah);
  ayahStr ← wrap "get ayah" (GetData userID SessionKeyAyah);
  let surahNumber := fst (Atoi surahStr) in
  let ayahNumber := fst (Atoi ayahStr) in
  let ayahID := FormatAyahID surahNumber ayahNumber in
  recording ← wrap "submit recording" (lift (SubmitRecording userID ayahID audioData));
  _ ← wrap "reset state" (SetState userID StateSelectSurah);
  mret recording.

(** [GetAyahInput] swallows the read error and yields [""]. *)
Definition GetAyahInput (userID : string) : M string := fun w =>
  match GetData userID SessionKeyAyahInput w with
  | (Err _, w') => (Ok "", w')
  | r => r
  end.

Definition SetAyahInput (userID input : string) : M unit :=
  SetData userID SessionKeyAyahInput input.

Definition ClearAyahInput (userID : string) : M unit :=
  DeleteData userID SessionKeyAyahInput.

Definition GetSelectedSurah (userID : string) : M Z :=
  surahStr ← wrap "get surah" (GetData userID SessionKeySurah);
  match Atoi surahStr with
  | (_, Some e) => fail e
  | (n, None) => mret n
  end.
(** [BotService.GetUserLanguage]: English when the read fails (a
    missing key included) or the stored value is empty. *)
Definition GetUserLanguage (userID : string) : M Language := fun w =>
  match GetData userID SessionKeyLanguage w with
  | (Ok langStr, w') => if String.eqb langStr "" then (Ok LangEnglish, w') else (Ok langStr, w')
  | (Err _, w') => (Ok LangEnglish, w')
  end.
End Service.

(* ================================================================== *)
(** ** Telegram handlers of the digit keyboard (adapter/telegram)

    Only what the handlers do to the session store is kept: messages
    they send or edit are not state of the bot. A handler that logs an
    error and returns is an [Err] here; a service call whose error the
    handler drops is wrapped in [ignore]. *)

Definition ignore {A} (m : M A) : M unit := fun w =>
  match m w with (_, w') => (Ok tt, w') end.

Section Bot.
Variable fault : nat -> bool.
Variable surahs : list Surah.

Definition surah_in_range (surahNum : Z) : bool :=
  (1 <=? surahNum) && (surahNum <=? Z.of_nat (length surahs)).

(** [handleDigitInput], for the callback ["digit:" + digit]. *)
Definition handleDigitInput (userID digit : string) : M unit :=
  currentInput ← GetAyahInput fault userID;
  currentInput ←
    (if Nat.ltb (String.length currentInput) 3 then
       let s := currentInput +:+ digit in
       _ ← SetAyahInput fault userID s; mret s
     else mret currentInput);
  surahNum ← GetSelectedSurah fault userID;
  if negb (surah_in_range surahNum) then mret tt
  else mret tt (* edit the message: surah name and [currentInput] *).

(** [handleClearDigit] (callback ["clear"]): drops the last digit. *)
Definition handleClearDigit (userID : string) : M unit :=
  currentInput ← GetAyahInput fault userID;
  currentInput ←
    (if Nat.ltb 0 (String.length currentInput) then
       let s := String.substring 0 (String.length currentInput - 1) currentInput in
       _ ← SetAyahInput fault userID s; mret s
     else mret currentInput);
  surahNum ← GetSelectedSurah fault userID;
  if negb (surah_in_range surahNum) then mret tt
  else mret tt.

(** [handleAyahDone] (callback ["done"]): confirms the buffer. *)
Definition handleAyahDone (userID : string) : M unit :=
  ayahInput ← GetAyahInput fault userID;
  if String.eqb ayahInput "" then
    ignore (GetSelectedSurah fault userID) (* re-render with an error *)
  else fun w =>
    match HandleAyahInput fault surahs userID ayahInput w with
    | (Err _, w') => ignore (GetSelectedSurah fault userID) w' (* re-render with an error *)
    | (Ok _, w') => ignore (ClearAyahInput fault userID) w'
    end.

(** The ["surah:" + n] callback of [handleCallback]. *)
Definition handleSurahCallback (userID arg : string) : M unit :=
  match Atoi arg with
  | (_, Some _) => fail "invalid input"
  | (surahNum, None) =>
      _ ← HandleSurahSelection fault surahs userID surahNum;
      ignore (ClearAyahInput fault userID)
  end.
(** [handleText]: a text message. The value is the i18n key of the
    message sent back. *)
Definition handleText (userID text : string) : M string := fun w =>
  match GetCurrentState fault userID w with
  | (Err _, w') => (Ok "error.generic", w')
  | (Ok state, w') =>
      if String.eqb state StateEnterAyah then
        match HandleAyahInput fault surahs userID text w' with
        | (Err _, w'') => (Ok "error.invalid_ayah", w'')
        | (Ok _, w'') => (Ok "recording.prompt", w'')
        end
      else (Ok "help.message", w')
  end.

(** The ["lang:" + code] branch of [handleCallback] (taken when
    [len(data) > 5] and [data[:5] == "lang:"]): [HandleStart] with
    [data[5:]] as the language. *)
Definition handleLangCallback (userID data : string) : M unit :=
  HandleStart fault userID (String.substring 5 (String.length data - 5) data).
End Bot.

(* ================================================================== *)
(** ** [Bot.formatRecordingsList] (recordings list pagination)

    Go's [/] on [int] truncates toward zero: [Z.quot]. Reading
    [recordings[i]] outside [0 <= i < len] is a run-time panic: [None]. *)

Definition itemsPerPage : Z := 5.

Definition page_bounds (n page : Z) : Z * Z * Z * Z :=
  let totalPages := Z.quot (n + itemsPerPage - 1) itemsPerPage in
  let page := if page <? 0 then 0 else page in
  let page := if totalPages <=? page then totalPages - 1 else page in
  let start := page * itemsPerPage in
  let end_ := start + itemsPerPage in
  let end_ := if n <? end_ then n else end_ in
  (totalPages, page, start, end_).

(** [for i := start; i < end; i++ { rec := recordings[i]; ... }] *)
Fixpoint index_loop {A} (xs : list A) (i : Z) (fuel : nat) : option (list A) :=
  match fuel with
  | O => Some []
  | S f =>
      if (0 <=? i) && (i <? Z.of_nat (length xs)) then
        match xs !! Z.to_nat i with
        | Some x => option_map (cons x) (index_loop xs (i + 1) f)
        | None => None
        end
      else None
  end.

(** The recordings shown on the page, with the page index and the
    total number of pages used for the navigation row. *)
Definition formatRecordingsList {A} (recordings : list A) (page : Z)
  : option (list A * Z * Z) :=
  let '(totalPages, page, start, end_) := page_bounds (Z.of_nat (length recordings)) page in
  match index_loop recordings start (Z.to_nat (end_ - start)) with
  | None => None
  | Some shown => Some (shown, page, totalPages)
  end.

Example recordings_page_two : formatRecordingsList (seq 0 7) 1 = Some ([5; 6]%nat, 1, 2).
Proof. reflexivity. Qed.
Example recordings_page_clamped : formatRecordingsList (seq 0 7) 9 = Some ([5; 6]%nat, 1, 2).
Proof. reflexivity. Qed.

(* ================================================================== *)
(** ** Inline keyboards (adapter/telegram)

    A button is its text and its callback data. Texts that come from
    the translations ([b.i18n.Get], [b.i18n.GetSurahName]) or from
    [time.Time.Format] are parameters. *)

Definition Button : Type := string * string.

(** ["\n"] *)
Definition nl : string := String (Ascii.ascii_of_nat 10) EmptyString.

(** [xs[i]]: [None] is the index-out-of-range panic. *)
Definition go_index {A} (xs : list A) (i : Z) : option A :=
  if (0 <=? i) && (i <? Z.of_nat (length xs)) then xs !! Z.to_nat i else None.

(** [Bot.getStatusEmoji] *)
Definition getStatusEmoji (status : string) : string :=
  if String.eqb status "queued" then "⏳"
  else if String.eqb status "processing" then "🔄"
  else if String.eqb status "done" then "✅"
  else if String.eqb status "failed" then "❌"
  else "❓".

Section Keyboards.
(** [b.i18n.Get(lang, key)] *)
Variable tr : string -> string.
(** [b.i18n.GetSurahName(lang, n)] *)
Variable surahName : Z -> string.
(** [t.Format("2006-01-02 15:04")] *)
Variable fmt_date : GoTime -> string.

(** The navigation row shared by both paginated keyboards: previous
    page, ["page+1/totalPages"] ([noop]), next page; only when there is
    more than one page. *)
Definition nav_row (prefix : string) (page totalPages : Z) : list (list Button) :=
  if 1 <? totalPages then
    [(if 0 <? page then [("⬅️ " +:+ tr "nav.prev", prefix +:+ Itoa (page - 1))] else []) ++
     [(Itoa (page + 1) +:+ "/" +:+ Itoa totalPages, "noop")] ++
     (if page <? totalPages - 1 then [(tr "nav.next" +:+ " ➡️", prefix +:+ Itoa (page + 1))]
      else [])]
  else [].

(** The recording buttons, the navigation row and the new-recording
    button of [Bot.formatRecordingsList], with its text. *)
Definition recording_button (rec : Recording) : Button :=
  let '(surahNum, ayahNum) := parseAyahID (rec_AyahID rec) in
  (getStatusEmoji (rec_Status rec) +:+ " " +:+ surahName surahNum +:+ ":" +:+ Itoa ayahNum
     +:+ " - " +:+ fmt_date (CreatedAt rec),
   "viewrec:" +:+ ID rec).

Definition formatRecordingsListView (recordings : list Recording) (page : Z)
  : option (string * list (list Button)) :=
  let '(totalPages, page, start, end_) := page_bounds (Z.of_nat (length recordings)) page in
  let text := "<b>" +:+ tr "recordings.title" +:+ "</b>" +:+ nl +:+ nl +:+
              tr "recordings.total" +:+ ": " +:+ Itoa (Z.of_nat (length recordings)) +:+ nl +:+ nl in
  match index_loop recordings start (Z.to_nat (end_ - start)) with
  | None => None
  | Some shown =>
      Some (text, map (fun rec => [recording_button rec]) shown ++
                  nav_row "recpage:" page totalPages ++
                  [[("➕ " +:+ tr "recording.new", "newrecord")]])
  end.

(** [Bot.getSurahKeyboard]: ten surahs a page, two buttons a row. *)
Definition surah_button (s : Surah) : Button :=
  (Itoa (Number s) +:+ ". " +:+ surahName (Number s), "surah:" +:+ Itoa (Number s)).

(** [for i := start; i < end; i += 2 { surah1 := surahs[i]; if i+1 < end { surah2 := surahs[i+1] ... } }] *)
Fixpoint surah_rows (surahs : list Surah) (fuel : nat) (i end_ : Z) : option (list (list Button)) :=
  match fuel with
  | O => Some []
  | S f =>
      if i <? end_ then
        match go_index surahs i with
        | None => None
        | Some s1 =>
            if i + 1 <? end_ then
              match go_index surahs (i + 1) with
              | None => None
              | Some s2 => option_map (cons [surah_button s1; surah_button s2])
                             (surah_rows surahs f (i + 2) end_)
              end
            else option_map (cons [surah_button s1]) (surah_rows surahs f (i + 2) end_)
        end
      else Some []
  end.

Definition surahsPerPage : Z := 10.

Definition surah_page_bounds (n page : Z) : Z * Z * Z * Z :=
  let totalPages := Z.quot (n + surahsPerPage - 1) surahsPerPage in
  let page := if page <? 0 then 0 else page in
  let page := if totalPages <=? page then totalPages - 1 else page in
  let start := page * surahsPerPage in
  let end_ := start + surahsPerPage in
  let end_ := if n <? end_ then n else end_ in
  (totalPages, page, start, end_).

Definition getSurahKeyboard (surahs : list Surah) (page : Z) : option (list (list Button)) :=
  let '(totalPages, page, start, end_) := surah_page_bounds (Z.of_nat (length surahs)) page in
  match surah_rows surahs (Z.to_nat (end_ - start)) start end_ with
  | None => None
  | Some rows => Some (rows ++ nav_row "spage:" page totalPages)
  end.
End Keyboards.

(* ================================================================== *)
(** ** [i18n.I18n.GetSurahName] *)

Record I18n := {
  translations : gmap string (gmap string string);
  i18n_surahs : gmap string (list string) }.

(** A missing map entry reads as the nil slice. *)
Definition GetSurahName (i : I18n) (lang : Language) (surahNumber : Z) : option string :=
  let english := default [] (i18n_surahs i !! LangEnglish) in
  let surahs :=
    match i18n_surahs i !! lang with
    | Some l => if (surahNumber <? 1) || (Z.of_nat (length l) <? surahNumber) then english else l
    | None => english
    end in
  if (surahNumber <? 1) || (Z.of_nat (length surahs) <? surahNumber)
  then Some ("Surah " +:+ Itoa surahNumber)
  else go_index surahs (surahNumber - 1).

(* ================================================================== *)
(** * Properties *)

(** ** Redis keys *)

Lemma list_ascii_of_string_app (a b : string) :
  String.list_ascii_of_string (a +:+ b) =
  String.list_ascii_of_string a ++ String.list_ascii_of_string b.
Proof. induction a as [|c a IH]; simpl; [done | by rewrite IH]. Qed.

(** When two concatenations are equal, the shorter tail is a suffix of
    the longer one. *)
Lemma app_eq_suffix {T} (l1 l2 x y : list T) :
  l1 ++ x = l2 ++ y -> (length x <= length y)%nat ->
  drop (length y - length x) y = x.
Proof.
  intros Heq Hle.
  assert (Hlen : (length l1 + length x = length l2 + length y)%nat)
    by (rewrite <- !length_app; by rewrite Heq).
  assert (Hx : drop (length l1) (l1 ++ x) = x) by apply drop_app_length.
  rewrite Heq in Hx.
  replace (length l1) with (length l2 + (length y - length x))%nat in Hx by lia.
  by rewrite <- drop_drop, drop_app_length in Hx.
Qed.

Definition session_keys : list string :=
  [SessionKeySurah; SessionKeyAyah; SessionKeyAyahInput; SessionKeyLanguage].

Lemma data_key_ne (u u' k k' : string) :
  k ∈ session_keys -> k' ∈ session_keys -> k <> k' -> data_key u k <> data_key u' k'.
Proof.
  intros Hk Hk' Hne Heq.
  apply (f_equal String.list_ascii_of_string) in Heq.
  unfold data_key in Heq. rewrite !list_ascii_of_string_app in Heq.
  apply app_inv_head in Heq.
  unfold session_keys in Hk, Hk'.
  rewrite !elem_of_cons, elem_of_nil in Hk, Hk'.
  destruct_or! Hk; destruct_or! Hk'; subst k k'; try (by destruct Hne); simpl in Heq;
    first [ apply app_eq_suffix in Heq; [vm_compute in Heq; discriminate | simpl; lia]
          | symmetry in Heq; apply app_eq_suffix in Heq;
            [vm_compute in Heq; discriminate | simpl; lia] ].
Qed.

Lemma state_key_ne_data_key (u u' k : string) : state_key u <> data_key u' k.
Proof. unfold state_key, data_key. simpl. discriminate. Qed.

Lemma session_keys_in_surah : SessionKeySurah ∈ session_keys.
Proof. unfold session_keys. set_solver. Qed.
Lemma session_keys_in_ayah : SessionKeyAyah ∈ session_keys.
Proof. unfold session_keys. set_solver. Qed.
Lemma session_keys_in_ayah_input : SessionKeyAyahInput ∈ session_keys.
Proof. unfold session_keys. set_solver. Qed.
Lemma session_keys_in_language : SessionKeyLanguage ∈ session_keys.
Proof. unfold session_keys. set_solver. Qed.

Create HintDb session.
#[export] Hint Resolve session_keys_in_surah session_keys_in_ayah
  session_keys_in_ayah_input session_keys_in_language : session.

Ltac run_monad :=
  repeat unfold mbind, M_bind, mret, M_ret, wrap, redis_io, fail, lift, ignore in *;
  simpl in *.

(* ------------------------------------------------------------------ *)
(** ** C1: [HandleStart] *)

Lemma HandleStart_run fault u lang w :
  fault (w_tick w) = false -> fault (S (w_tick w)) = false ->
  HandleStart fault u lang w =
    (Ok tt, {| w_redis := <[data_key u SessionKeyLanguage := lang]>
                            (<[state_key u := StateSelectSurah]> (w_redis w));
               w_tick := S (S (w_tick w)) |}).
Proof.
  intros H0 H1. unfold HandleStart, SetState, SetData. run_monad.
  rewrite H0. simpl. rewrite H1. reflexivity.
Qed.

(** C1 (corrected). When both of its store writes succeed, [HandleStart]
    sets the state to [select_surah] and the language attribute to the
    language it is given, and leaves every other key of the store as it
    was: in particular the selected surah, the selected ayah and the
    digit buffer are not cleared. *)
Theorem HandleStart_effect fault u lang w :
  fault (w_tick w) = false -> fault (S (w_tick w)) = false ->
  let '(r, w') := HandleStart fault u lang w in
  r = Ok tt /\
  w_redis w' !! state_key u = Some StateSelectSurah /\
  w_redis w' !! data_key u SessionKeyLanguage = Some lang /\
  (forall k, k <> state_key u -> k <> data_key u SessionKeyLanguage ->
             w_redis w' !! k = w_redis w !! k) /\
  (forall key, key ∈ [SessionKeySurah; SessionKeyAyah; SessionKeyAyahInput] ->
             w_redis w' !! data_key u key = w_redis w !! data_key u key).
Proof.
  intros H0 H1. rewrite (HandleStart_run _ _ _ _ H0 H1). simpl.
  assert (Hother : forall k, k <> state_key u -> k <> data_key u SessionKeyLanguage ->
    <[data_key u SessionKeyLanguage:=lang]> (<[state_key u:=StateSelectSurah]> (w_redis w)) !! k
    = w_redis w !! k).
  { intros k Hk1 Hk2. rewrite !lookup_insert_ne; congruence. }
  split_and!; [done | | by rewrite lookup_insert_eq | exact Hother | ].
  - rewrite lookup_insert_ne; [by rewrite lookup_insert_eq|].
    intros E. symmetry in E. by eapply state_key_ne_data_key.
  - intros key Hkey. apply Hother; [intros E; by eapply state_key_ne_data_key|].
    apply data_key_ne; [unfold session_keys in *; set_solver | auto with session |].
    intros ->. set_solver.
Qed.

Definition start_world : World :=
  {| w_redis := <[data_key "42" SessionKeyAyahInput := "12"]>
                  (<[data_key "42" SessionKeySurah := "5"]>
                     (<[state_key "42" := StateWaitRecording]> ∅));
     w_tick := 0 |}.

(** C1 counterexample: after [/start] from [wait_recording] with surah 5
    selected and ["12"] in the digit buffer, both attributes are still
    stored. *)
Lemma HandleStart_keeps_selection :
  let w' := snd (HandleStart (fun _ => false) "42" LangEnglish start_world) in
  w_redis w' !! data_key "42" SessionKeySurah = Some "5" /\
  w_redis w' !! data_key "42" SessionKeyAyahInput = Some "12".
Proof. vm_compute. split; reflexivity. Qed.

Lemma HandleStart_effect_witness :
  let '(r, w') := HandleStart (fun _ => false) "42" LangEnglish start_world in
  r = Ok tt /\
  w_redis w' !! state_key "42" = Some StateSelectSurah /\
  w_redis w' !! data_key "42" SessionKeyLanguage = Some LangEnglish /\
  (forall k, k <> state_key "42" -> k <> data_key "42" SessionKeyLanguage ->
             w_redis w' !! k = w_redis start_world !! k) /\
  (forall key, key ∈ [SessionKeySurah; SessionKeyAyah; SessionKeyAyahInput] ->
             w_redis w' !! data_key "42" key = w_redis start_world !! data_key "42" key).
Proof. apply (HandleStart_effect (fun _ => false)); reflexivity. Defined.

(* ------------------------------------------------------------------ *)
(** ** C2, C3: locators *)

Lemma bytes_of_substring n m s :
  bytes_of (String.substring n m s) = take m (drop n (bytes_of s)).
Proof.
  revert n m. induction s as [|c s IH]; intros [|n] [|m];
    unfold bytes_of in *; simpl; try done.
  by rewrite IH, drop_0.
Qed.

Lemma length_bytes_of s : String.length s = length (bytes_of s).
Proof.
  induction s as [|c s IH]; simpl; [done|]. unfold bytes_of in *. simpl. by rewrite IH.
Qed.

Lemma bytes_of_string_of_bytes l :
  Forall (fun c => c < 256)%nat l -> bytes_of (string_of_bytes l) = l.
Proof.
  intros Hl. unfold bytes_of, string_of_bytes.
  rewrite String.list_ascii_of_string_of_list_ascii, map_map.
  induction Hl as [|c l Hc _ IH]; simpl; [done|].
  by rewrite Ascii.nat_ascii_embedding, IH.
Qed.

Definition fmt_03d_check (k : nat) : bool :=
  let z := Z.of_nat k in
  Nat.eqb (length (fmt_03d z)) 3 && forallb is_digit (fmt_03d z) &&
  match scan_int_d (fmt_03d z) with Some v => v =? z | None => false end.

Lemma fmt_03d_check_all : forallb fmt_03d_check (seq 0 1000) = true.
Proof. vm_compute. reflexivity. Qed.

Lemma fmt_03d_three_digits z :
  0 <= z <= 999 ->
  length (fmt_03d z) = 3%nat /\ Forall (fun c => c < 256)%nat (fmt_03d z) /\
  scan_int_d (fmt_03d z) = Some z.
Proof.
  intros Hz.
  pose proof fmt_03d_check_all as Hall. rewrite forallb_forall in Hall.
  specialize (Hall (Z.to_nat z)). rewrite in_seq in Hall.
  specialize (Hall ltac:(lia)). unfold fmt_03d_check in Hall.
  rewrite Z2Nat.id in Hall by lia.
  apply andb_prop in Hall as [Hall Hscan]. apply andb_prop in Hall as [Hlen Hdig].
  split_and!.
  - by apply Nat.eqb_eq.
  - apply Forall_forall. intros c Hc. rewrite forallb_forall in Hdig.
    specialize (Hdig c (proj1 (list_elem_of_In _ _) Hc)). unfold is_digit in Hdig.
    apply andb_prop in Hdig as [_ H]. apply Nat.leb_le in H. lia.
  - destruct (scan_int_d (fmt_03d z)) as [v|]; [|done]. apply Z.eqb_eq in Hscan. by subst.
Qed.

Lemma parse_format_three_digits p n :
  0 <= p <= 999 -> 0 <= n <= 999 -> parseAyahID (FormatAyahID p n) = (p, n).
Proof.
  intros Hp Hn.
  destruct (fmt_03d_three_digits p Hp) as (Hlp & Hbp & Hsp).
  destruct (fmt_03d_three_digits n Hn) as (Hln & Hbn & Hsn).
  unfold parseAyahID, FormatAyahID.
  rewrite length_bytes_of, bytes_of_string_of_bytes by (apply Forall_app; done).
  rewrite length_app, Hlp, Hln. simpl.
  rewrite !bytes_of_substring, bytes_of_string_of_bytes by (apply Forall_app; done).
  rewrite drop_0, take_app_length' by done.
  rewrite drop_app_length' by done. rewrite take_ge by lia.
  by rewrite Hsp, Hsn.
Qed.

(** C2 (confirmed, with [FormatAyahID] modelled from the spec). For a
    surah table whose numbers fit the three-digit fields of the
    locator, every surah [p] of the table and ayah [n] of that surah
    come back unchanged from [parseAyahID (FormatAyahID p n)]. *)
Theorem locator_roundtrip (surahs : list Surah) (p n : Z) :
  (length surahs <= 999)%nat ->
  (forall s, s ∈ surahs -> Ayahs s <= 999) ->
  1 <= p <= Z.of_nat (length surahs) ->
  (exists s, surahs !! Z.to_nat (p - 1) = Some s /\ 1 <= n <= Ayahs s) ->
  parseAyahID (FormatAyahID p n) = (p, n).
Proof.
  intros Hlen Hay Hp (s & Hs & Hn).
  apply parse_format_three_digits; [lia|].
  assert (Ayahs s <= 999) by (apply Hay; by eapply list_elem_of_lookup_2). lia.
Qed.

Definition two_surahs : list Surah :=
  [{| Number := 1; Name := "Al-Fatiha"; Ayahs := 7 |};
   {| Number := 2; Name := "Al-Baqarah"; Ayahs := 286 |}].

Lemma locator_roundtrip_witness :
  parseAyahID (FormatAyahID 2 255) = (2, 255).
Proof.
  apply (locator_roundtrip two_surahs 2 255).
  - simpl. lia.
  - intros s Hs. unfold two_surahs in Hs.
    rewrite !elem_of_cons, elem_of_nil in Hs. destruct_or! Hs; subst s; simpl; lia.
  - simpl. lia.
  - exists {| Number := 2; Name := "Al-Baqarah"; Ayahs := 286 |}. split; [reflexivity|simpl; lia].
Defined.

Lemma skip_space_suffix fuel l l1 : skip_space fuel l = Some l1 -> exists k, l = k ++ l1.
Proof.
  revert l l1. induction fuel as [|f IH]; intros l l1 H; simpl in H.
  - injection H as <-. by exists [].
  - destruct l as [|c r].
    + injection H as <-. by exists [].
    + destruct (decide (c = 13%nat /\ head r = Some 10%nat)) as [[-> Hr]|Hc].
      * destruct r as [|c' r]; [done|]. injection Hr as ->.
        destruct (IH _ _ H) as [k ->]. by exists (13%nat :: k).
      * assert (Hgen : match List.find (fun sp => is_prefixb sp (c :: r)) go_space_seqs with
                       | Some sp => skip_space f (drop (length sp) (c :: r))
                       | None => Some (c :: r) end = Some l1 \/ c = 10%nat).
        { destruct c as [|[|[|[|[|[|[|[|[|[|[|[|[|[|c]]]]]]]]]]]]]]; auto;
            destruct r as [|c' r]; auto;
            destruct c' as [|[|[|[|[|[|[|[|[|[|[|c']]]]]]]]]]]; auto;
            exfalso; apply Hc; split; reflexivity. }
        destruct Hgen as [Hgen| ->]; [|destruct r as [|[|[|[|[|[|[|[|[|[|[|[|[|[|]]]]]]]]]]]]]]; done].
        destruct (List.find _ _) as [sp|].
        -- destruct (IH _ _ Hgen) as [k Hk]. exists (take (length sp) (c :: r) ++ k).
           by rewrite <- app_assoc, <- Hk, take_drop.
        -- injection Hgen as <-. by exists [].
Qed.

Lemma take_while_digits_head l c ds :
  take_while_digits l = c :: ds -> c ∈ l /\ is_digit c = true.
Proof.
  destruct l as [|c' r]; simpl; [done|].
  destruct (is_digit c') eqn:E; [|done]. intros [= -> _]. split; [set_solver|done].
Qed.

Lemma accept_sign_sub l neg l2 :
  accept_sign l = (neg, l2) -> forall c : nat, c ∈ l2 -> c ∈ l.
Proof.
  intros H c Hc. unfold accept_sign in H.
  repeat case_match; simplify_eq; set_solver.
Qed.

Lemma scan_int_d_has_digit l v :
  scan_int_d l = Some v -> exists c, c ∈ l /\ is_digit c = true.
Proof.
  unfold scan_int_d.
  destruct (skip_space (length l) l) as [l1|] eqn:Hs; [|done].
  destruct (skip_space_suffix _ _ _ Hs) as [k ->].
  destruct l1 as [|b r]; [done|].
  destruct (accept_sign (b :: r)) as [neg l2] eqn:Ha.
  destruct (take_while_digits l2) as [|c ds] eqn:Ht; [done|]. intros _.
  apply take_while_digits_head in Ht as [Hc Hd].
  exists c. split; [|done]. apply elem_of_app. right. by eapply accept_sign_sub.
Qed.

(** C3 (corrected). [parseAyahID] yields [(0, 0)] on every input whose
    length is not 6, and on every input of length 6 with no ASCII digit
    at all. *)
Theorem parseAyahID_malformed_zero (s : string) :
  String.length s <> 6%nat \/ Forall (fun c => is_digit c = false) (bytes_of s) ->
  parseAyahID s = (0, 0).
Proof.
  intros H. unfold parseAyahID.
  destruct (Nat.eqb_spec (String.length s) 6) as [Hlen|Hlen]; [|done].
  destruct H as [H|Hnd]; [done|]. simpl.
  assert (Hhalf : forall n m, default 0 (scan_int_d (bytes_of (String.substring n m s))) = 0).
  { intros n m. destruct (scan_int_d _) as [v|] eqn:Hv; [|done].
    apply scan_int_d_has_digit in Hv as [c [Hc Hd]].
    rewrite bytes_of_substring in Hc.
    assert (Hf : Forall (fun c => is_digit c = false) (take m (drop n (bytes_of s))))
      by (apply Forall_take, Forall_drop, Hnd).
    rewrite Forall_forall in Hf. specialize (Hf c Hc). congruence. }
  by rewrite !Hhalf.
Qed.

Lemma parseAyahID_malformed_zero_witness : parseAyahID "abcdef" = (0, 0).
Proof.
  apply parseAyahID_malformed_zero. right. vm_compute. repeat constructor.
Defined.

(** C3 counterexample: ["001x01"] has length 6 and a non-digit, yet
    decodes to [(1, 0)]: the first half is read as 1, the second fails
    to scan and stays 0. *)
Lemma parseAyahID_nondigit_not_zero :
  String.length "001x01" = 6%nat /\
  is_digit (nat_of_ascii "x") = false /\
  parseAyahID "001x01" = (1, 0) /\ parseAyahID "001x01" <> (0, 0).
Proof. split_and!; [reflexivity | reflexivity | reflexivity | discriminate]. Qed.

(* ------------------------------------------------------------------ *)
(** ** Reads leave the store as it is *)

Lemma GetData_redis fault u k w : w_redis (snd (GetData fault u k w)) = w_redis w.
Proof.
  unfold GetData. run_monad.
  destruct (fault (w_tick w)); simpl; [done|]. by destruct (w_redis w !! data_key u k).
Qed.

Lemma GetAyahInput_redis fault u w : w_redis (snd (GetAyahInput fault u w)) = w_redis w.
Proof.
  unfold GetAyahInput. pose proof (GetData_redis fault u SessionKeyAyahInput w) as H.
  destruct (GetData fault u SessionKeyAyahInput w) as [[v|e] w'] eqn:E; simpl in *; done.
Qed.

Lemma GetAyahInput_value fault u w :
  fst (GetAyahInput fault u w) = Ok "" \/
  exists v, fst (GetAyahInput fault u w) = Ok v /\
            w_redis w !! data_key u SessionKeyAyahInput = Some v.
Proof.
  unfold GetAyahInput, GetData. run_monad.
  destruct (fault (w_tick w)); simpl; [by left|].
  destruct (w_redis w !! data_key u SessionKeyAyahInput) eqn:E; simpl; [right; eauto|by left].
Qed.

Lemma GetSelectedSurah_redis fault u w : w_redis (snd (GetSelectedSurah fault u w)) = w_redis w.
Proof.
  unfold GetSelectedSurah, mbind, M_bind, wrap.
  pose proof (GetData_redis fault u SessionKeySurah w) as H.
  destruct (GetData fault u SessionKeySurah w) as [[v|e] w'] eqn:E; simpl in *; [|done].
  run_monad. by destruct (Atoi v) as [n [e'|]].
Qed.

Lemma ignore_redis {A} (m : M A) w : w_redis (snd (ignore m w)) = w_redis (snd (m w)).
Proof. unfold ignore. by destruct (m w). Qed.

(* ------------------------------------------------------------------ *)
(** ** C4: confirming an ayah number out of range *)

Lemma HandleAyahInput_out_of_range_run fault surahs u input w p n surah sstr :
  w_redis w !! data_key u SessionKeySurah = Some sstr -> Atoi sstr = (p, None) ->
  1 <= p <= Z.of_nat (length surahs) -> surahs !! Z.to_nat (p - 1) = Some surah ->
  Atoi input = (n, None) -> n < 1 \/ Ayahs surah < n ->
  (exists e, fst (HandleAyahInput fault surahs u input w) = Err e) /\
  w_redis (snd (HandleAyahInput fault surahs u input w)) = w_redis w.
Proof.
  intros Hs Hp Hrange Hsurah Hin Hn.
  unfold HandleAyahInput. rewrite Hin.
  unfold GetData. run_monad.
  destruct (fault (w_tick w)); simpl; [eauto|].
  rewrite Hs. simpl. rewrite Hp.
  assert (Hc : ((p <? 1) || (Z.of_nat (length surahs) <? p)) = false)
    by (apply orb_false_iff; split; apply Z.ltb_ge; lia).
  rewrite Hc, Hsurah.
  assert (Ha : ((n <? 1) || (Ayahs surah <? n)) = true)
    by (apply orb_true_iff; destruct Hn; [left|right]; apply Z.ltb_lt; lia).
  rewrite Ha. simpl. eauto.
Qed.

(** C4 (confirmed). In state [enter_ayah] with surah [p] selected, a
    digit buffer that parses to an ayah number outside [1 .. Ayahs p]
    makes [HandleAyahInput] fail without touching the store (state and
    selected ayah included), and the ["done"] callback that confirms
    that buffer ([handleAyahDone]) leaves the store as it was. *)
Theorem confirm_out_of_range_keeps_session fault surahs u input w p n surah sstr :
  w_redis w !! state_key u = Some StateEnterAyah ->
  w_redis w !! data_key u SessionKeySurah = Some sstr -> Atoi sstr = (p, None) ->
  1 <= p <= Z.of_nat (length surahs) -> surahs !! Z.to_nat (p - 1) = Some surah ->
  w_redis w !! data_key u SessionKeyAyahInput = Some input ->
  Atoi input = (n, None) -> n < 1 \/ Ayahs surah < n ->
  ((exists e, fst (HandleAyahInput fault surahs u input w) = Err e) /\
   w_redis (snd (HandleAyahInput fault surahs u input w)) = w_redis w) /\
  w_redis (snd (handleAyahDone fault surahs u w)) = w_redis w.
Proof.
  intros _ Hs Hp Hrange Hsurah Hbuf Hin Hn.
  split; [by eapply HandleAyahInput_out_of_range_run|].
  unfold handleAyahDone, mbind, M_bind.
  pose proof (GetAyahInput_redis fault u w) as Hr.
  pose proof (GetAyahInput_value fault u w) as Hv.
  destruct (GetAyahInput fault u w) as [r w1] eqn:E. simpl in Hr, Hv.
  destruct Hv as [->|(v & -> & Hv)].
  - simpl. by rewrite ignore_redis, GetSelectedSurah_redis.
  - rewrite Hbuf in Hv. injection Hv as <-.
    destruct (String.eqb input "") eqn:Hempty.
    + by rewrite ignore_redis, GetSelectedSurah_redis.
    + rewrite <- Hr in Hs, Hbuf.
      destruct (HandleAyahInput_out_of_range_run fault surahs u input w1 p n surah sstr)
        as [[e He] Hw]; try done.
      destruct (HandleAyahInput fault surahs u input w1) as [r' w2]. simpl in He, Hw. subst r'.
      rewrite ignore_redis, GetSelectedSurah_redis. congruence.
Qed.

Lemma confirm_out_of_range_keeps_session_witness :
  let w := {| w_redis := <[data_key "7" SessionKeyAyahInput := "9"]>
                           (<[data_key "7" SessionKeySurah := "1"]>
                              (<[state_key "7" := StateEnterAyah]> ∅));
              w_tick := 0 |} in
  ((exists e, fst (HandleAyahInput (fun _ => false) two_surahs "7" "9" w) = Err e) /\
   w_redis (snd (HandleAyahInput (fun _ => false) two_surahs "7" "9" w)) = w_redis w) /\
  w_redis (snd (handleAyahDone (fun _ => false) two_surahs "7" w)) = w_redis w.
Proof.
  apply (confirm_out_of_range_keeps_session (fun _ => false) two_surahs "7" "9" _ 1 9
           {| Number := 1; Name := "Al-Fatiha"; Ayahs := 7 |} "1");
    try reflexivity; simpl; lia.
Defined.

(* ------------------------------------------------------------------ *)
(** ** C5, C6: [mapRecording] on the two response shapes *)

(** [{"wer": wer, "ops": ops}] *)
Definition legacy_result (wer : float64) (ops : slice opResponse) : resultResponse :=
  {| r_Status := ""; r_DetectionMethod := ""; r_StartingAyah := "";
     r_DetectionConfidence := ""; r_Hypothesis := ""; r_DetectedRange := None;
     r_OverallStatistics := None; r_PerAyahResults := None; r_ProcessingTime := 0;
     r_Error := ""; r_Suggestion := ""; r_Transcript := ""; r_TranscriptLength := 0;
     r_WER := wer; r_Ops := ops |}.

Definition recording_with (res : resultResponse) : recordingResponse :=
  {| rr_RecordingID := "3cbb065e"; rr_LearnerID := "42"; rr_AyahID := "";
     rr_Status := "done"; rr_CreatedAt := ""; rr_UpdatedAt := "";
     rr_Result := Some res; rr_Error := "" |}.

(** [{"status": "no_match", "detection_method": "auto", "per_ayah_results": []}] *)
Definition detection_empty_result : resultResponse :=
  {| r_Status := "no_match"; r_DetectionMethod := "auto"; r_StartingAyah := "";
     r_DetectionConfidence := ""; r_Hypothesis := ""; r_DetectedRange := None;
     r_OverallStatistics := None; r_PerAyahResults := Some []; r_ProcessingTime := 0;
     r_Error := ""; r_Suggestion := ""; r_Transcript := ""; r_TranscriptLength := 0;
     r_WER := 0; r_Ops := None |}.

(** C5 counterexample: with [detection_method] set and an empty but
    present [per_ayah_results], the mapped result carries a nil
    per-ayah slice, not a non-nil empty one. *)
Lemma mapRecording_empty_per_ayah_is_nil :
  option_map PerAyahResults
    (Result (mapRecording (fun _ => zero_time) (recording_with detection_empty_result)))
  = Some None.
Proof. reflexivity. Qed.

(** C5 (corrected). Mapping a response whose result has a non-empty
    [detection_method] and an empty [per_ayah_results] array never
    fails: the result keeps [detection_method] (so it is rendered as an
    auto-detect result) and its per-ayah field is the nil slice, of
    length 0. *)
Theorem mapRecording_detection_empty_per_ayah tp (r : recordingResponse) res :
  rr_Result r = Some res -> r_DetectionMethod res <> "" -> r_PerAyahResults res = Some [] ->
  exists out, Result (mapRecording tp r) = Some out /\
    DetectionMethod out = r_DetectionMethod res /\ DetectionMethod out <> "" /\
    PerAyahResults out = None /\ len (PerAyahResults out) = 0%nat.
Proof.
  intros Hr Hd Hp. unfold mapRecording. rewrite Hr. simpl.
  eexists. split; [reflexivity|]. simpl. rewrite Hp. done.
Qed.

Lemma mapRecording_detection_empty_per_ayah_witness :
  exists out, Result (mapRecording (fun _ => zero_time) (recording_with detection_empty_result))
                = Some out /\
    DetectionMethod out = "auto" /\ DetectionMethod out <> "" /\
    PerAyahResults out = None /\ len (PerAyahResults out) = 0%nat.
Proof.
  apply (mapRecording_detection_empty_per_ayah _ _ detection_empty_result);
    [reflexivity | discriminate | reflexivity].
Defined.

(** C6 (confirmed). A response whose result holds only the legacy
    fields [wer] and [ops] maps to a result with no detection method
    (fixed-target), no overall statistics, [wer] copied, and as many
    operations as [ops], each with its fields copied, in order. *)
Theorem mapRecording_legacy tp (r : recordingResponse) wer ops :
  rr_Result r = Some (legacy_result wer ops) ->
  exists out, Result (mapRecording tp r) = Some out /\
    DetectionMethod out = "" /\ OverallStatistics out = None /\ rr_WER out = wer /\
    len (Ops out) = len ops /\
    (forall i o, elems ops !! i = Some o ->
       exists o', elems (Ops out) !! i = Some o' /\
         RefAr o' = opr_RefAr o /\ RefClean o' = opr_RefClean o /\
         HypAr o' = opr_HypAr o /\ HypClean o' = opr_HypClean o /\
         Op o' = opr_Op o /\ TStart o' = opr_TStart o /\ TEnd o' = opr_TEnd o).
Proof.
  intros Hr. unfold mapRecording. rewrite Hr. simpl.
  eexists. split; [reflexivity|]. simpl. split_and!; try done.
  - unfold map_nonempty. destruct ops as [l|]; simpl; [|done].
    destruct (Nat.ltb_spec 0 (length l)); simpl; [by rewrite length_map | lia].
  - intros i o Hi. unfold map_nonempty.
    destruct ops as [l|]; simpl in *; [|by rewrite lookup_nil in Hi].
    destruct (Nat.ltb_spec 0 (length l)) as [_|Hl].
    + simpl. rewrite list_lookup_fmap, Hi. simpl. eexists. split; [reflexivity|]. done.
    + destruct l; [by rewrite lookup_nil in Hi | simpl in Hl; lia].
Qed.

Definition two_ops : slice opResponse :=
  Some [{| opr_RefAr := "bismi"; opr_RefClean := "bsm"; opr_HypAr := "bismi";
           opr_HypClean := "bsm"; opr_Op := "C"; opr_TStart := 0; opr_TEnd := 522 |};
        {| opr_RefAr := "allahi"; opr_RefClean := "allh"; opr_HypAr := "";
           opr_HypClean := ""; opr_Op := "D"; opr_TStart := 1064; opr_TEnd := 1687 |}].

Lemma mapRecording_legacy_witness :
  exists out, Result (mapRecording (fun _ => zero_time) (recording_with (legacy_result 0 two_ops)))
                = Some out /\
    DetectionMethod out = "" /\ OverallStatistics out = None /\ rr_WER out = 0 /\
    len (Ops out) = len two_ops /\
    (forall i o, elems two_ops !! i = Some o ->
       exists o', elems (Ops out) !! i = Some o' /\
         RefAr o' = opr_RefAr o /\ RefClean o' = opr_RefClean o /\
         HypAr o' = opr_HypAr o /\ HypClean o' = opr_HypClean o /\
         Op o' = opr_Op o /\ TStart o' = opr_TStart o /\ TEnd o' = opr_TEnd o).
Proof. apply (mapRecording_legacy _ _ 0 two_ops). reflexivity. Defined.

(* ------------------------------------------------------------------ *)
(** ** C7: a failed submission *)

(** [SubmitRecording] fails on a transport error or timeout, on a
    non-200 status, and on a body that does not decode. *)
Lemma SubmitRecording_fails baseURL http_post now u ayahID audio :
  let url := baseURL +:+ "/recordings?learner_id=" +:+ u +:+ "&ayah_id=" +:+ ayahID in
  (http_post url audio = NetError \/
   (exists code body, http_post url audio = HttpResponse code body /\ code <> 200) \/
   http_post url audio = HttpResponse 200 None) ->
  exists e, SubmitRecording baseURL http_post now u ayahID audio = Err e.
Proof.
  intros url H. unfold SubmitRecording. fold url.
  destruct H as [->|[(code & body & -> & Hc)| ->]]; [eauto| |simpl; eauto].
  apply Z.eqb_neq in Hc. rewrite Hc. simpl. eauto.
Qed.

(** C7 (confirmed). In state [wait_recording], when the submission of
    the recording for the locator read from the session fails,
    [HandleRecording] returns an error and the store, hence the state,
    is left as it was before: the user can send the recording again. *)
Theorem HandleRecording_submit_failure fault baseURL http_post now u audio w :
  w_redis w !! state_key u = Some StateWaitRecording ->
  (forall s a, w_redis w !! data_key u SessionKeySurah = Some s ->
               w_redis w !! data_key u SessionKeyAyah = Some a ->
               exists e, SubmitRecording baseURL http_post now u
                           (FormatAyahID (fst (Atoi s)) (fst (Atoi a))) audio = Err e) ->
  (exists e, fst (HandleRecording fault baseURL http_post now u audio w) = Err e) /\
  w_redis (snd (HandleRecording fault baseURL http_post now u audio w)) = w_redis w /\
  w_redis (snd (HandleRecording fault baseURL http_post now u audio w)) !! state_key u
    = Some StateWaitRecording.
Proof.
  intros Hst Hsub.
  enough (H : (exists e, fst (HandleRecording fault baseURL http_post now u audio w) = Err e) /\
              w_redis (snd (HandleRecording fault baseURL http_post now u audio w)) = w_redis w)
    by (destruct H as [H1 H2]; split_and!; [done|done|by rewrite H2]).
  unfold HandleRecording, GetData. run_monad.
  destruct (fault (w_tick w)); simpl; [eauto|].
  destruct (w_redis w !! data_key u SessionKeySurah) as [s|] eqn:Hs; simpl; [|eauto].
  destruct (fault (S (w_tick w))); simpl; [eauto|].
  destruct (w_redis w !! data_key u SessionKeyAyah) as [a|] eqn:Ha; simpl; [|eauto].
  destruct (Hsub s a eq_refl eq_refl) as [e He]. rewrite He. simpl. eauto.
Qed.

Definition recording_world : World :=
  {| w_redis := <[data_key "42" SessionKeyAyah := "1"]>
                  (<[data_key "42" SessionKeySurah := "1"]>
                     (<[state_key "42" := StateWaitRecording]> ∅));
     w_tick := 0 |}.

Lemma HandleRecording_submit_failure_witness :
  let h := HandleRecording (fun _ => false) "https://quran.namaz.live"
             (fun _ _ => HttpResponse 502 None) zero_time "42" [82%nat; 73%nat] recording_world in
  (exists e, fst h = Err e) /\ w_redis (snd h) = w_redis recording_world /\
  w_redis (snd h) !! state_key "42" = Some StateWaitRecording.
Proof.
  apply HandleRecording_submit_failure; [reflexivity|].
  intros s a _ _. apply SubmitRecording_fails. right. left.
  exists 502, None. split; [reflexivity|discriminate].
Defined.

(* ------------------------------------------------------------------ *)
(** ** C8: the digit buffer holds at most three characters *)

(** Every user's digit buffer, when stored, has at most 3 characters. *)
Definition buffer_ok (m : Redis) : Prop :=
  forall u s, m !! data_key u SessionKeyAyahInput = Some s -> (String.length s <= 3)%nat.

(** A computation keeps [buffer_ok] from every world. *)
Definition preserves {A} (m : M A) : Prop :=
  forall w, buffer_ok (w_redis w) -> buffer_ok (w_redis (snd (m w))).

Lemma preserves_ret {A} (a : A) : preserves (mret a).
Proof. by intros w Hw. Qed.

Lemma preserves_fail {A} msg : preserves (fail (A:=A) msg).
Proof. by intros w Hw. Qed.

Lemma preserves_bind {A B} (m : M A) (k : A -> M B) :
  preserves m -> (forall a, preserves (k a)) -> preserves (m ≫= k).
Proof.
  intros Hm Hk w Hw. unfold mbind, M_bind.
  specialize (Hm w Hw). destruct (m w) as [[a|e] w']; simpl in *; [by apply Hk|done].
Qed.

Lemma preserves_wrap {A} ctx (m : M A) : preserves m -> preserves (wrap ctx m).
Proof. intros Hm w Hw. unfold wrap. specialize (Hm w Hw). by destruct (m w) as [[a|e] w']. Qed.

Lemma preserves_ignore {A} (m : M A) : preserves m -> preserves (ignore m).
Proof. intros Hm w Hw. rewrite ignore_redis. by apply Hm. Qed.

Lemma preserves_redis_io {A} fault (f : Redis -> result A * Redis) :
  (forall m, buffer_ok m -> buffer_ok (snd (f m))) -> preserves (redis_io fault f).
Proof.
  intros Hf w Hw. unfold redis_io.
  destruct (fault (w_tick w)); [done|].
  specialize (Hf _ Hw). by destruct (f (w_redis w)).
Qed.

Lemma preserves_GetData fault u k : preserves (GetData fault u k).
Proof. intros w Hw. by rewrite GetData_redis. Qed.

Lemma preserves_GetAyahInput fault u : preserves (GetAyahInput fault u).
Proof. intros w Hw. by rewrite GetAyahInput_redis. Qed.

Lemma preserves_GetSelectedSurah fault u : preserves (GetSelectedSurah fault u).
Proof. intros w Hw. by rewrite GetSelectedSurah_redis. Qed.

Lemma preserves_SetState fault u st : preserves (SetState fault u st).
Proof.
  apply preserves_redis_io. intros m Hm u' s. simpl.
  rewrite lookup_insert_ne; [apply Hm|]. apply state_key_ne_data_key.
Qed.

Lemma preserves_SetData_other fault u k v :
  k ∈ session_keys -> k <> SessionKeyAyahInput -> preserves (SetData fault u k v).
Proof.
  intros Hk Hne. apply preserves_redis_io. intros m Hm u' s. simpl.
  rewrite lookup_insert_ne; [apply Hm|]. apply data_key_ne; auto with session.
Qed.

Lemma preserves_SetAyahInput fault u v :
  (String.length v <= 3)%nat -> preserves (SetAyahInput fault u v).
Proof.
  intros Hv. apply preserves_redis_io. intros m Hm u' s. simpl.
  destruct (decide (data_key u SessionKeyAyahInput = data_key u' SessionKeyAyahInput)) as [E|E].
  - rewrite <- E, lookup_insert_eq. by intros [= <-].
  - rewrite lookup_insert_ne by done. apply Hm.
Qed.

Lemma preserves_DeleteData fault u k : preserves (DeleteData fault u k).
Proof.
  apply preserves_redis_io. intros m Hm u' s. simpl.
  destruct (decide (data_key u k = data_key u' SessionKeyAyahInput)) as [E|E].
  - rewrite <- E, lookup_delete_eq. done.
  - rewrite lookup_delete_ne by done. apply Hm.
Qed.

Lemma preserves_ClearAyahInput fault u : preserves (ClearAyahInput fault u).
Proof. apply preserves_DeleteData. Qed.

Lemma GetAyahInput_bounded fault u w s :
  buffer_ok (w_redis w) -> fst (GetAyahInput fault u w) = Ok s -> (String.length s <= 3)%nat.
Proof.
  intros Hw Hs. destruct (GetAyahInput_value fault u w) as [H|(v & H & Hv)];
    rewrite Hs in H; injection H as ->; [simpl; lia|]. by apply (Hw u).
Qed.

Lemma string_length_app (a b : string) :
  String.length (a +:+ b) = (String.length a + String.length b)%nat.
Proof. induction a as [|c a IH]; simpl; [done|by rewrite IH]. Qed.

Lemma string_length_substring0 n s :
  (String.length (String.substring 0 n s) <= String.length s)%nat.
Proof. rewrite !length_bytes_of, bytes_of_substring, drop_0, length_take. lia. Qed.

Create HintDb buffer.
#[export] Hint Resolve preserves_ret preserves_fail preserves_wrap preserves_ignore
  preserves_GetData preserves_GetAyahInput preserves_GetSelectedSurah preserves_SetState
  preserves_DeleteData preserves_ClearAyahInput : buffer.

Lemma preserves_HandleAyahInput fault surahs u input :
  preserves (HandleAyahInput fault surahs u input).
Proof.
  unfold HandleAyahInput.
  destruct (Atoi input) as [n [e|]]; [auto with buffer|].
  apply preserves_bind; [auto with buffer|]. intros sstr.
  destruct (Atoi sstr) as [p [e|]]; [auto with buffer|].
  destruct (_ || _); [auto with buffer|].
  destruct (surahs !! _) as [surah|]; [|auto with buffer].
  destruct (_ || _); [auto with buffer|].
  apply preserves_bind; [|intros; auto with buffer].
  apply preserves_wrap, preserves_SetData_other; [auto with session|].
  unfold SessionKeyAyah, SessionKeyAyahInput. discriminate.
Qed.

Lemma preserves_HandleSurahSelection fault surahs u n :
  preserves (HandleSurahSelection fault surahs u n).
Proof.
  unfold HandleSurahSelection.
  destruct (_ || _); [auto with buffer|].
  apply preserves_bind; [|intros; auto with buffer].
  apply preserves_wrap, preserves_SetData_other; [auto with session|].
  unfold SessionKeySurah, SessionKeyAyahInput. discriminate.
Qed.

Lemma preserves_handleDigitInput fault surahs u d :
  String.length d = 1%nat -> preserves (handleDigitInput fault surahs u d).
Proof.
  intros Hd w Hw. unfold handleDigitInput, mbind at 1, M_bind at 1.
  pose proof (GetAyahInput_bounded fault u w) as Hb.
  pose proof (GetAyahInput_redis fault u w) as Hr.
  destruct (GetAyahInput fault u w) as [[cur|e] w1]; simpl in *; [|by rewrite Hr].
  specialize (Hb cur Hw eq_refl). rewrite <- Hr in Hw. clear Hr.
  revert w1 Hw. apply preserves_bind; [|intros; apply preserves_bind; auto with buffer;
    intros; by destruct (negb _); auto with buffer].
  destruct (Nat.ltb_spec (String.length cur) 3); [|auto with buffer].
  apply preserves_bind; [|auto with buffer].
  apply preserves_SetAyahInput. rewrite string_length_app. lia.
Qed.

Lemma preserves_handleClearDigit fault surahs u : preserves (handleClearDigit fault surahs u).
Proof.
  intros w Hw. unfold handleClearDigit, mbind at 1, M_bind at 1.
  pose proof (GetAyahInput_bounded fault u w) as Hb.
  pose proof (GetAyahInput_redis fault u w) as Hr.
  destruct (GetAyahInput fault u w) as [[cur|e] w1]; simpl in *; [|by rewrite Hr].
  specialize (Hb cur Hw eq_refl). rewrite <- Hr in Hw. clear Hr.
  revert w1 Hw. apply preserves_bind; [|intros; apply preserves_bind; auto with buffer;
    intros; by destruct (negb _); auto with buffer].
  destruct (Nat.ltb_spec 0 (String.length cur)); [|auto with buffer].
  apply preserves_bind; [|auto with buffer].
  apply preserves_SetAyahInput. pose proof (string_length_substring0 (String.length cur - 1) cur). lia.
Qed.

Lemma preserves_handleAyahDone fault surahs u : preserves (handleAyahDone fault surahs u).
Proof.
  unfold handleAyahDone. apply preserves_bind; [auto with buffer|]. intros input.
  destruct (String.eqb input ""); [auto with buffer|].
  intros w Hw. pose proof (preserves_HandleAyahInput fault surahs u input w Hw) as H.
  destruct (HandleAyahInput fault surahs u input w) as [[a|e] w']; simpl in *.
  - exact (preserves_ignore _ (preserves_ClearAyahInput fault u) w' H).
  - exact (preserves_ignore _ (preserves_GetSelectedSurah fault u) w' H).
Qed.

Lemma preserves_handleSurahCallback fault surahs u arg :
  preserves (handleSurahCallback fault surahs u arg).
Proof.
  unfold handleSurahCallback. destruct (Atoi arg) as [n [e|]]; [auto with buffer|].
  apply preserves_bind; [apply preserves_HandleSurahSelection|auto with buffer].
Qed.

Lemma handleDigitInput_tail fault surahs u w :
  w_redis (snd ((surahNum ← GetSelectedSurah fault u;
                 if negb (surah_in_range surahs surahNum) then mret tt else mret tt) w))
  = w_redis w.
Proof.
  unfold mbind, M_bind. pose proof (GetSelectedSurah_redis fault u w) as H.
  destruct (GetSelectedSurah fault u w) as [[n|e] w']; simpl in *; [|done].
  by destruct (negb _).
Qed.

Lemma handleDigitInput_store fault surahs u d w :
  fault (w_tick w) = false -> fault (S (w_tick w)) = false ->
  let cur := default "" (w_redis w !! data_key u SessionKeyAyahInput) in
  w_redis (snd (handleDigitInput fault surahs u d w)) =
    if Nat.ltb (String.length cur) 3
    then <[data_key u SessionKeyAyahInput := cur +:+ d]> (w_redis w)
    else w_redis w.
Proof.
  intros H0 H1 cur. unfold handleDigitInput, mbind at 1 2, M_bind at 1 2.
  unfold GetAyahInput at 1, GetData at 1, redis_io at 1. rewrite H0.
  unfold cur. destruct (w_redis w !! data_key u SessionKeyAyahInput) as [v|]; simpl.
  - destruct (Nat.ltb (String.length v) 3).
    + unfold mbind, M_bind at 1, SetAyahInput, SetData, redis_io at 1. simpl. rewrite H1. simpl.
      apply (handleDigitInput_tail fault surahs u {| w_redis := _; w_tick := _ |}).
    + apply (handleDigitInput_tail fault surahs u {| w_redis := _; w_tick := _ |}).
  - unfold mbind, M_bind at 1, SetAyahInput, SetData, redis_io at 1. simpl. rewrite H1. simpl.
    apply (handleDigitInput_tail fault surahs u {| w_redis := _; w_tick := _ |}).
Qed.

(** C8 (confirmed). A digit press (a one-character payload of the keypad,
    ["digit:0"] to ["digit:9"]) with the buffer read and write served by the
    store appends the digit to the buffer when its current length (missing
    buffer: empty) is below 3, and otherwise leaves the whole store unchanged.
    Whatever the store faults, the invariant "every stored buffer has at most
    3 characters" is kept by digit press, backspace ([clear]), confirmation
    ([done]), clearing the buffer, and surah selection (which clears it). *)
Theorem digit_buffer_bounded (fault : nat -> bool) (surahs : list Surah) (d : string) :
  (String.length d = 1)%nat ->
  (forall u w, fault (w_tick w) = false -> fault (S (w_tick w)) = false ->
     let cur := default "" (w_redis w !! data_key u SessionKeyAyahInput) in
     w_redis (snd (handleDigitInput fault surahs u d w)) =
       if Nat.ltb (String.length cur) 3
       then <[data_key u SessionKeyAyahInput := cur +:+ d]> (w_redis w)
       else w_redis w) /\
  (forall u, preserves (handleDigitInput fault surahs u d)) /\
  (forall u, preserves (handleClearDigit fault surahs u)) /\
  (forall u, preserves (handleAyahDone fault surahs u)) /\
  (forall u, preserves (ClearAyahInput fault u)) /\
  (forall u arg, preserves (handleSurahCallback fault surahs u arg)).
Proof.
  intros Hd. split; [intros u w H0 H1; by apply handleDigitInput_store|].
  split; [intros u; by apply preserves_handleDigitInput|].
  split; [intros u; apply preserves_handleClearDigit|].
  split; [intros u; apply preserves_handleAyahDone|].
  split; [intros u; apply preserves_ClearAyahInput|].
  intros u arg; apply preserves_handleSurahCallback.
Qed.

Lemma digit_buffer_bounded_witness :
  String.length "7" = 1%nat /\
  w_redis (snd (handleDigitInput (fun _ => false) two_surahs "42" "7"
                  {| w_redis := <[data_key "42" SessionKeyAyahInput := "12"]> ∅; w_tick := 0 |}))
  = <[data_key "42" SessionKeyAyahInput := "127"]> (<[data_key "42" SessionKeyAyahInput := "12"]> ∅).
Proof.
  split; [reflexivity|].
  destruct (digit_buffer_bounded (fun _ => false) two_surahs "7" eq_refl) as [Ha _].
  rewrite (Ha "42" {| w_redis := <[data_key "42" SessionKeyAyahInput := "12"]> ∅; w_tick := 0 |}
             eq_refl eq_refl).
  simpl. rewrite lookup_insert_eq. reflexivity.
Defined.

(* ------------------------------------------------------------------ *)
(** ** C9: store failures during a transition *)

Definition selection_world : World :=
  {| w_redis := <[state_key "42" := StateSelectSurah]> ∅; w_tick := 0 |}.

(** C9 counterexample: surah 2 is chosen from [select_surah]; the first
    store write (the surah attribute) succeeds and the second (the state)
    fails. The transition reports an error, yet the surah attribute has
    been written while the state is still [select_surah]. *)
Lemma HandleSurahSelection_partial_write :
  let h := HandleSurahSelection (fun t => Nat.eqb t 1) two_surahs "42" 2 selection_world in
  (exists e, fst h = Err e) /\
  w_redis selection_world !! data_key "42" SessionKeySurah = None /\
  w_redis (snd h) !! data_key "42" SessionKeySurah = Some "2" /\
  w_redis (snd h) !! state_key "42" = Some StateSelectSurah /\
  w_redis (snd h) <> w_redis selection_world.
Proof.
  simpl. split; [eexists; reflexivity|].
  split; [reflexivity|]. split; [reflexivity|]. split; [reflexivity|].
  intros H. assert (Hl := f_equal (lookup (data_key "42" SessionKeySurah)) H).
  discriminate Hl.
Qed.

(** C9 (corrected). The transitions issue their writes one after the other
    and undo nothing. A failing store call makes [HandleStart],
    [HandleSurahSelection] and [HandleAyahInput] return an error (for
    [HandleAyahInput]: the read of the surah, then the two writes). When
    they fail, the store is either the one it started from or that store
    with exactly the transition's first write applied (state
    [select_surah]; surah attribute; ayah attribute), the second write
    (language; state [enter_ayah]; state [wait_recording]) missing. A
    failed store call is one that had no effect on Redis (see [redis_io]). *)
Theorem transition_failure_partial (fault : nat -> bool) (surahs : list Surah)
    (u : string) (lang : Language) (n : Z) (input : string) (w : World) :
  (forall e, fst (HandleStart fault u lang w) = Err e ->
     w_redis (snd (HandleStart fault u lang w)) = w_redis w \/
     w_redis (snd (HandleStart fault u lang w)) =
       <[state_key u := StateSelectSurah]> (w_redis w)) /\
  (forall e, fst (HandleSurahSelection fault surahs u n w) = Err e ->
     w_redis (snd (HandleSurahSelection fault surahs u n w)) = w_redis w \/
     w_redis (snd (HandleSurahSelection fault surahs u n w)) =
       <[data_key u SessionKeySurah := Itoa n]> (w_redis w)) /\
  (forall e, fst (HandleAyahInput fault surahs u input w) = Err e ->
     w_redis (snd (HandleAyahInput fault surahs u input w)) = w_redis w \/
     w_redis (snd (HandleAyahInput fault surahs u input w)) =
       <[data_key u SessionKeyAyah := Itoa (fst (Atoi input))]> (w_redis w)) /\
  ((fault (w_tick w) = true \/ fault (S (w_tick w)) = true) ->
     exists e, fst (HandleStart fault u lang w) = Err e) /\
  ((fault (w_tick w) = true \/ fault (S (w_tick w)) = true) ->
     exists e, fst (HandleSurahSelection fault surahs u n w) = Err e) /\
  ((fault (w_tick w) = true \/ fault (S (w_tick w)) = true \/ fault (S (S (w_tick w))) = true) ->
     exists e, fst (HandleAyahInput fault surahs u input w) = Err e).
Proof.
  split; [|split; [|split; [|split; [|split]]]].
  - intros e. unfold HandleStart, SetState, SetData. run_monad.
    destruct (fault (w_tick w)); simpl; [by left|].
    destruct (fault (S (w_tick w))); simpl; [by right|done].
  - intros e. unfold HandleSurahSelection.
    destruct (_ || _); [by left|].
    unfold SetState, SetData. run_monad.
    destruct (fault (w_tick w)); simpl; [by left|].
    destruct (fault (S (w_tick w))); simpl; [by right|done].
  - intros e. unfold HandleAyahInput.
    destruct (Atoi input) as [a [err|]]; simpl; [by left|].
    unfold GetData, SetState, SetData. run_monad.
    destruct (fault (w_tick w)); simpl; [by left|].
    destruct (w_redis w !! data_key u SessionKeySurah) as [sstr|]; simpl; [|by left].
    destruct (Atoi sstr) as [p [err|]]; simpl; [by left|].
    destruct (_ || _); [by left|].
    destruct (surahs !! _) as [surah|]; [|by left].
    destruct (_ || _); [by left|]. run_monad.
    destruct (fault (S (w_tick w))); simpl; [by left|].
    destruct (fault (S (S (w_tick w)))); simpl; [by right|done].
  - intros Hf. unfold HandleStart, SetState, SetData. run_monad.
    destruct (fault (w_tick w)) eqn:F0; simpl; [eauto|].
    destruct (fault (S (w_tick w))) eqn:F1; simpl; [eauto|].
    destruct Hf; congruence.
  - intros Hf. unfold HandleSurahSelection.
    destruct (_ || _); [unfold fail; eauto|].
    unfold SetState, SetData. run_monad.
    destruct (fault (w_tick w)) eqn:F0; simpl; [eauto|].
    destruct (fault (S (w_tick w))) eqn:F1; simpl; [eauto|].
    destruct Hf; congruence.
  - intros Hf. unfold HandleAyahInput.
    destruct (Atoi input) as [a [err|]]; simpl; [unfold fail; eauto|].
    unfold GetData, SetState, SetData. run_monad.
    destruct (fault (w_tick w)) eqn:F0; simpl; [eauto|].
    destruct (w_redis w !! data_key u SessionKeySurah) as [sstr|]; simpl; [|eauto].
    destruct (Atoi sstr) as [p [err|]]; simpl; [unfold fail; eauto|].
    destruct (_ || _); [unfold fail; eauto|].
    destruct (surahs !! _) as [surah|]; [|unfold fail; eauto].
    destruct (_ || _); [unfold fail; eauto|]. run_monad.
    destruct (fault (S (w_tick w))) eqn:F1; simpl; [eauto|].
    destruct (fault (S (S (w_tick w)))) eqn:F2; simpl; [eauto|].
    destruct Hf as [?|[?|?]]; congruence.
Qed.

Lemma transition_failure_partial_witness :
  w_redis (snd (HandleSurahSelection (fun t => Nat.eqb t 1) two_surahs "42" 2 selection_world))
    = w_redis selection_world \/
  w_redis (snd (HandleSurahSelection (fun t => Nat.eqb t 1) two_surahs "42" 2 selection_world))
    = <[data_key "42" SessionKeySurah := Itoa 2]> (w_redis selection_world).
Proof.
  destruct (transition_failure_partial (fun t => Nat.eqb t 1) two_surahs "42" LangEnglish 2 ""
              selection_world) as [_ [H _]].
  apply (H "set state: redis: i/o error"). vm_compute. reflexivity.
Defined.

(* ------------------------------------------------------------------ *)
(** ** C10: bounds of the recordings page *)

Lemma index_loop_in_bounds {A} (xs : list A) (f : nat) (i : Z) :
  0 <= i -> i + Z.of_nat f <= Z.of_nat (length xs) ->
  index_loop xs i f = Some (take f (drop (Z.to_nat i) xs)).
Proof.
  revert i. induction f as [|f IH]; intros i Hi Hf; simpl; [done|].
  assert (Hc : ((0 <=? i) && (i <? Z.of_nat (length xs))) = true).
  { apply andb_true_intro. split; [apply Z.leb_le|apply Z.ltb_lt]; lia. }
  rewrite Hc.
  destruct (lookup_lt_is_Some_2 xs (Z.to_nat i)) as [x Hx]; [lia|].
  rewrite Hx, IH by lia. rewrite (drop_S xs x (Z.to_nat i) Hx). simpl.
  by replace (Z.to_nat (i + 1)) with (S (Z.to_nat i)) by lia.
Qed.

(** With at least one recording, the page is clamped into
    [0 .. totalPages - 1], [0 <= start <= end <= len], and the loop reads
    only in-bounds indices. *)
Lemma formatRecordingsList_nonempty {A} (recordings : list A) (page : Z) :
  (0 < length recordings)%nat ->
  let '(totalPages, page', start, end_) :=
    page_bounds (Z.of_nat (length recordings)) page in
  0 <= page' < totalPages /\ 0 <= start <= end_ /\ end_ <= Z.of_nat (length recordings) /\
  formatRecordingsList recordings page =
    Some (take (Z.to_nat (end_ - start)) (drop (Z.to_nat start) recordings), page', totalPages).
Proof.
  intros Hn. unfold formatRecordingsList, page_bounds, itemsPerPage.
  set (n := Z.of_nat (length recordings)).
  assert (Hn' : 0 < n) by lia.
  set (tp := Z.quot (n + 5 - 1) 5).
  assert (Htp : 1 <= tp /\ 5 * (tp - 1) < n).
  { unfold tp. rewrite Z.quot_div_nonneg by lia.
    pose proof (Z.div_mod (n + 5 - 1) 5). pose proof (Z.mod_pos_bound (n + 5 - 1) 5). lia. }
  set (p1 := if page <? 0 then 0 else page).
  assert (Hp1 : 0 <= p1) by (unfold p1; destruct (Z.ltb_spec page 0); lia).
  set (p2 := if tp <=? p1 then tp - 1 else p1).
  assert (Hp2 : 0 <= p2 < tp) by (unfold p2; destruct (Z.leb_spec tp p1); lia).
  set (e := if n <? p2 * 5 + 5 then n else p2 * 5 + 5).
  assert (He : p2 * 5 <= e <= n) by (unfold e; destruct (Z.ltb_spec n (p2 * 5 + 5)); lia).
  split; [lia|]. split; [lia|]. split; [lia|].
  rewrite index_loop_in_bounds by lia. reflexivity.
Qed.

(** C10 (code bug). With no recordings, whatever the page, [totalPages] is
    0, the page is clamped to -1, the loop runs from [start = -5] to
    [end = 0], and its first read [recordings[-5]] is out of range (a Go
    run-time panic). *)
Theorem formatRecordingsList_empty_panics {A} (page : Z) :
  page_bounds 0 page = (0, -1, -5, 0) /\
  formatRecordingsList (@nil A) page = None.
Proof.
  assert (Hb : page_bounds 0 page = (0, -1, -5, 0)).
  { unfold page_bounds, itemsPerPage.
    replace (Z.quot (0 + 5 - 1) 5) with 0 by reflexivity.
    destruct (Z.ltb_spec page 0) as [H|H]; simpl; [reflexivity|].
    destruct (Z.leb_spec 0 page); [reflexivity|lia]. }
  split; [exact Hb|]. unfold formatRecordingsList.
  change (Z.of_nat (length (@nil A))) with 0. rewrite Hb. reflexivity.
Qed.

(* ================================================================== *)
(** * Further properties of the code *)

(** ** [strconv.Itoa] is read back by [strconv.Atoi] *)

Lemma digits_value_acc_app acc l1 l2 :
  digits_value_acc acc (l1 ++ l2) = digits_value_acc (digits_value_acc acc l1) l2.
Proof. revert acc. induction l1 as [|c l1 IH]; intros acc; simpl; [done|apply IH]. Qed.

Lemma dec_rev_S f n :
  dec_rev (S f) n =
    (48 + Z.to_nat (n mod 10))%nat :: (if n <? 10 then [] else dec_rev f (n / 10)).
Proof. reflexivity. Qed.

Lemma dec_rev_spec fuel n :
  0 <= n < 10 ^ Z.of_nat (S fuel) ->
  digits_value (rev (dec_rev (S fuel) n)) = n /\
  Forall (fun c => 48 <= c <= 57)%nat (dec_rev (S fuel) n) /\ dec_rev (S fuel) n <> [].
Proof.
  revert n. induction fuel as [|f IH]; intros n Hn;
    pose proof (Z.mod_pos_bound n 10 ltac:(lia)) as Hm;
    assert (Hd : (48 <= 48 + Z.to_nat (n mod 10) <= 57)%nat) by lia;
    rewrite dec_rev_S; destruct (Z.ltb_spec n 10) as [Hlt|Hge].
  - split; [|split; [constructor; [done|constructor]|done]].
    unfold digits_value. simpl. rewrite Z.mod_small by lia. lia.
  - simpl in Hn. lia.
  - split; [|split; [constructor; [done|constructor]|done]].
    unfold digits_value. simpl. rewrite Z.mod_small by lia. lia.
  - rewrite Nat2Z.inj_succ, Z.pow_succ_r in Hn by lia.
    destruct (IH (n / 10)) as (H1 & H2 & H3).
    { split; [apply Z.div_pos; lia|]. apply Z.div_lt_upper_bound; lia. }
    split; [|split; [by constructor|done]].
    unfold digits_value in *. cbn [rev]. rewrite digits_value_acc_app, H1. simpl.
    pose proof (Z.div_mod n 10). lia.
Qed.

Lemma decimal_spec n :
  0 <= n ->
  digits_value (decimal n) = n /\ Forall (fun c => 48 <= c <= 57)%nat (decimal n) /\
  decimal n <> [].
Proof.
  intros Hn. unfold decimal.
  destruct (dec_rev_spec (Z.to_nat (Z.log2 n)) n) as (H1 & H2 & H3).
  { split; [done|]. destruct (Z.eq_dec n 0) as [->|Hn0]; [simpl; lia|].
    pose proof (Z.log2_spec n ltac:(lia)) as [_ Hl].
    assert (E : Z.of_nat (S (Z.to_nat (Z.log2 n))) = Z.succ (Z.log2 n))
      by (pose proof (Z.log2_nonneg n); lia).
    rewrite E.
    eapply Z.lt_le_trans; [exact Hl|]. apply Z.pow_le_mono_l.
    pose proof (Z.log2_nonneg n). lia. }
  split_and!; [done| |].
  - by apply Forall_rev.
  - intros Hr. apply H3. apply (f_equal (@rev nat)) in Hr. by rewrite rev_involutive in Hr.
Qed.

Lemma digits_forallb l :
  Forall (fun c => 48 <= c <= 57)%nat l -> forallb is_digit l = true.
Proof.
  induction 1 as [|c l Hc _ IH]; simpl; [done|].
  rewrite IH, andb_true_r. unfold is_digit. apply andb_true_intro. split; apply Nat.leb_le; lia.
Qed.

Lemma Atoi_Itoa n : int64_min <= n <= int64_max -> Atoi (Itoa n) = (n, None).
Proof.
  intros Hn. unfold Atoi, Itoa, int64_min, int64_max in *.
  destruct (Z.ltb_spec n 0) as [Hneg|Hpos].
  - destruct (decimal_spec (- n) ltac:(lia)) as (H1 & H2 & H3).
    rewrite bytes_of_string_of_bytes.
    2:{ constructor; [lia|]. eapply Forall_impl; [exact H2|]. simpl. lia. }
    revert H1 H2 H3. generalize (decimal (- n)) as ds. intros ds H1 H2 H3.
    cbn -[digits_value forallb].
    destruct ds as [|c r]; [done|]. rewrite digits_forallb by done. simpl orb.
    rewrite H1. replace (-1 * - n) with n by lia.
    destruct (Z.ltb_spec n (- 2 ^ 63)); [lia|]. destruct (Z.ltb_spec (2 ^ 63 - 1) n); [lia|].
    done.
  - destruct (decimal_spec n ltac:(lia)) as (H1 & H2 & H3).
    rewrite bytes_of_string_of_bytes.
    2:{ eapply Forall_impl; [exact H2|]. simpl. lia. }
    revert H1 H2 H3. generalize (decimal n) as ds. intros ds H1 H2 H3.
    destruct ds as [|c r]; [done|].
    apply Forall_cons in H2 as [Hc Hr].
    assert (Hc45 : Nat.eqb c 45 = false) by (apply Nat.eqb_neq; lia).
    assert (Hc43 : Nat.eqb c 43 = false) by (apply Nat.eqb_neq; lia).
    rewrite Hc45, Hc43. cbn -[digits_value forallb].
    rewrite digits_forallb by (by constructor).
    rewrite H1. replace (1 * n) with n by lia.
    destruct (Z.ltb_spec n (- 2 ^ 63)); [lia|]. destruct (Z.ltb_spec (2 ^ 63 - 1) n); [lia|].
    done.
Qed.

(** ** Session keys of different users or attributes are distinct *)

Lemma string_app_inv_head (p a b : string) : p +:+ a = p +:+ b -> a = b.
Proof. induction p as [|c p IH]; simpl; [done|]. intros H. injection H. apply IH. Qed.

Lemma string_app_inv_tail (a b s : string) : a +:+ s = b +:+ s -> a = b.
Proof.
  intros H. apply (f_equal String.list_ascii_of_string) in H.
  rewrite !list_ascii_of_string_app in H. apply app_inv_tail in H.
  apply (f_equal String.string_of_list_ascii) in H.
  by rewrite !String.string_of_list_ascii_of_string in H.
Qed.

Lemma data_key_inj_user u u' k : data_key u k = data_key u' k -> u = u'.
Proof.
  unfold data_key. intros H. apply string_app_inv_head in H.
  by apply string_app_inv_tail in H.
Qed.

Lemma data_key_ne_pair u u' k k' :
  k ∈ session_keys -> k' ∈ session_keys -> (u <> u' \/ k <> k') ->
  data_key u k <> data_key u' k'.
Proof.
  intros Hk Hk' [Hu|Hne].
  - destruct (decide (k = k')) as [->|Hne]; [|by apply data_key_ne].
    intros H. by apply Hu, (data_key_inj_user _ _ k').
  - by apply data_key_ne.
Qed.

Lemma state_key_inj u u' : state_key u = state_key u' -> u = u'.
Proof. apply string_app_inv_head. Qed.

(** X1: Writes to one user's session attribute, and state changes of one
    user, leave every other user's state and every other session
    attribute as stored. *)
Theorem session_store_isolation (fault : nat -> bool) (u u' k k' v : string) (st : State) (w : World) :
  k ∈ session_keys -> k' ∈ session_keys -> (u <> u' \/ k <> k') ->
  w_redis (snd (SetData fault u k v w)) !! data_key u' k' = w_redis w !! data_key u' k' /\
  w_redis (snd (DeleteData fault u k w)) !! data_key u' k' = w_redis w !! data_key u' k' /\
  w_redis (snd (SetData fault u k v w)) !! state_key u' = w_redis w !! state_key u' /\
  w_redis (snd (DeleteData fault u k w)) !! state_key u' = w_redis w !! state_key u' /\
  w_redis (snd (SetState fault u st w)) !! data_key u' k' = w_redis w !! data_key u' k' /\
  (u <> u' -> w_redis (snd (SetState fault u st w)) !! state_key u' = w_redis w !! state_key u').
Proof.
  intros Hk Hk' Hne.
  pose proof (data_key_ne_pair u u' k k' Hk Hk' Hne) as Hd.
  unfold SetData, DeleteData, SetState, redis_io.
  destruct (fault (w_tick w)); simpl; [done|].
  split_and!.
  - by rewrite lookup_insert_ne.
  - by rewrite lookup_delete_ne.
  - rewrite lookup_insert_ne; [done|]. intros H. by apply (state_key_ne_data_key u' u k).
  - rewrite lookup_delete_ne; [done|]. intros H. by apply (state_key_ne_data_key u' u k).
  - rewrite lookup_insert_ne; [done|]. apply state_key_ne_data_key.
  - intros Hu. rewrite lookup_insert_ne; [done|]. intros H. by apply Hu, state_key_inj.
Qed.

Definition other_user_world : World :=
  {| w_redis := <[data_key "7" SessionKeySurah := "2"]> ∅; w_tick := 0 |}.

Lemma user_42_ne_7 : ("42" : string) <> "7".
Proof. discriminate. Qed.

Lemma session_store_isolation_witness :
  w_redis (snd (SetData (fun _ => false) "42" SessionKeySurah "5" other_user_world))
    !! data_key "7" SessionKeySurah = Some "2".
Proof.
  pose proof (session_store_isolation (fun _ => false) "42" "7" SessionKeySurah SessionKeySurah "5"
              StateStart other_user_world
              session_keys_in_surah session_keys_in_surah) as H.
  specialize (H (or_introl user_42_ne_7)).
  destruct H as [H _].
  rewrite H. vm_compute. reflexivity.
Defined.

(** ** Surah selection is read back *)

Lemma HandleSurahSelection_Ok fault surahs u n w w' :
  HandleSurahSelection fault surahs u n w = (Ok tt, w') ->
  1 <= n <= Z.of_nat (length surahs) /\
  w_redis w' = <[state_key u := StateEnterAyah]> (<[data_key u SessionKeySurah := Itoa n]> (w_redis w)).
Proof.
  unfold HandleSurahSelection.
  destruct ((n <? 1) || (Z.of_nat (length surahs) <? n)) eqn:Hr; [discriminate|].
  apply orb_false_iff in Hr as [H1 H2]; apply Z.ltb_ge in H1, H2.
  unfold mbind, M_bind, wrap, SetData, SetState, redis_io; simpl.
  destruct (fault (w_tick w)); [discriminate|]; simpl.
  destruct (fault (S (w_tick w))); [discriminate|]; simpl.
  intros E; inversion E; subst; simpl; split; [lia|reflexivity].
Qed.

(** X2: after a successful surah selection (any table whose size fits
    Go's [int]), the next read of the selected surah gives back the chosen
    number ([Itoa] is read back by [Atoi]) and the state is [enter_ayah],
    when those reads are served by the store. *)
Theorem surah_selection_roundtrip fault surahs u n w w' :
  Z.of_nat (length surahs) <= int64_max ->
  HandleSurahSelection fault surahs u n w = (Ok tt, w') ->
  fault (w_tick w') = false ->
  fst (GetSelectedSurah fault u w') = Ok n /\
  fst (GetCurrentState fault u w') = Ok StateEnterAyah.
Proof.
  intros Hlen Hsel Hf.
  apply HandleSurahSelection_Ok in Hsel as [Hn Hw].
  unfold GetSelectedSurah, GetCurrentState, GetState, GetData, wrap, mbind, M_bind, redis_io.
  rewrite Hf, Hw.
  rewrite lookup_insert_ne by apply state_key_ne_data_key.
  rewrite !lookup_insert_eq.
  cbn -[Atoi Itoa].
  rewrite Atoi_Itoa by (unfold int64_min, int64_max in *; lia).
  split; reflexivity.
Qed.

Lemma surah_selection_roundtrip_witness :
  fst (GetSelectedSurah (fun _ => false) "42"
         (snd (HandleSurahSelection (fun _ => false) two_surahs "42" 2 start_world))) = Ok 2 /\
  fst (GetCurrentState (fun _ => false) "42"
         (snd (HandleSurahSelection (fun _ => false) two_surahs "42" 2 start_world))) = Ok StateEnterAyah.
Proof.
  apply (surah_selection_roundtrip (fun _ => false) two_surahs "42" 2 start_world).
  - vm_compute; discriminate.
  - vm_compute. reflexivity.
  - reflexivity.
Defined.

(** ** The manual flow: selection, ayah entry, recording *)

Lemma HandleAyahInput_store fault surahs u input w :
  match HandleAyahInput fault surahs u input w with
  | (Ok _, w') => snd (Atoi input) = None /\
      w_redis w' = <[state_key u := StateWaitRecording]>
                     (<[data_key u SessionKeyAyah := Itoa (fst (Atoi input))]> (w_redis w))
  | (Err _, w') => w_redis w' = w_redis w \/
      (snd (Atoi input) = None /\
       w_redis w' = <[data_key u SessionKeyAyah := Itoa (fst (Atoi input))]> (w_redis w))
  end.
Proof.
  unfold HandleAyahInput, mbind, M_bind, wrap, fail, GetData, SetData, SetState, redis_io.
  destruct (Atoi input) as [a [e|]]; simpl; [by left|].
  destruct (fault (w_tick w)); simpl; [by left|].
  destruct (w_redis w !! data_key u SessionKeySurah) as [s|]; simpl; [|by left].
  destruct (Atoi s) as [p [e|]]; simpl; [by left|].
  destruct ((p <? 1) || (Z.of_nat (length surahs) <? p)); simpl; [by left|].
  destruct (surahs !! Z.to_nat (p - 1)) as [su|]; simpl; [|by left].
  destruct ((a <? 1) || (Ayahs su <? a)); simpl; [by left|].
  destruct (fault (S (w_tick w))); simpl; [by left|].
  destruct (fault (S (S (w_tick w)))); simpl; [by right|done].
Qed.

Lemma Atoi_ok_range s a : Atoi s = (a, None) -> int64_min <= a <= int64_max.
Proof.
  unfold Atoi. destruct (bytes_of s) as [|c r]; [discriminate|].
  destruct (if Nat.eqb c 45 then _ else _) as [neg ds].
  destruct (Nat.eqb (length ds) 0 || negb (forallb is_digit ds)); [discriminate|].
  set (v := (if neg then -1 else 1) * digits_value ds).
  destruct (v <? int64_min) eqn:E1; [discriminate|].
  destruct (int64_max <? v) eqn:E2; [discriminate|].
  intros E; inversion E; subst. apply Z.ltb_ge in E1, E2. lia.
Qed.

Lemma surah_key_ne_ayah_key u : data_key u SessionKeySurah <> data_key u SessionKeyAyah.
Proof.
  apply data_key_ne_pair; [apply session_keys_in_surah|apply session_keys_in_ayah|].
  right. discriminate.
Qed.

(** X3: the manual flow end to end. After a successful surah selection
    [p] and a successful ayah entry [input], with the store serving every
    later call, [HandleRecording] submits the audio for the locator
    [FormatAyahID p n] ([n] the number read from [input]) for this user.
    On success it returns the gateway's recording and resets the state to
    [select_surah], changing nothing else; on a submit error it returns
    the wrapped error and leaves the store as it is. *)
Theorem manual_flow_submission fault baseURL http_post now surahs u p input audio w w1 w2 :
  Z.of_nat (length surahs) <= int64_max ->
  HandleSurahSelection fault surahs u p w = (Ok tt, w1) ->
  HandleAyahInput fault surahs u input w1 = (Ok tt, w2) ->
  (forall t, (w_tick w2 <= t)%nat -> fault t = false) ->
  let ayahID := FormatAyahID p (fst (Atoi input)) in
  let run := HandleRecording fault baseURL http_post now u audio w2 in
  match SubmitRecording baseURL http_post now u ayahID audio with
  | Ok rec => fst run = Ok rec /\
              w_redis (snd run) = <[state_key u := StateSelectSurah]> (w_redis w2)
  | Err e => fst run = Err ("submit recording: " +:+ e) /\ w_redis (snd run) = w_redis w2
  end.
Proof.
  intros Hlen Hsel Hay Hf ayahID run.
  apply HandleSurahSelection_Ok in Hsel as [Hp Hw1].
  pose proof (HandleAyahInput_store fault surahs u input w1) as Hw2.
  rewrite Hay in Hw2. destruct Hw2 as [Ha Hw2].
  destruct (Atoi input) as [a e] eqn:Ea; simpl in Ha, Hw2; subst e.
  pose proof (Atoi_ok_range _ _ Ea) as Har.
  assert (Hs : w_redis w2 !! data_key u SessionKeySurah = Some (Itoa p)).
  { rewrite Hw2, Hw1.
    rewrite lookup_insert_ne by apply state_key_ne_data_key.
    rewrite lookup_insert_ne by (apply not_eq_sym, surah_key_ne_ayah_key).
    rewrite lookup_insert_ne by apply state_key_ne_data_key.
    apply lookup_insert_eq. }
  assert (Hy : w_redis w2 !! data_key u SessionKeyAyah = Some (Itoa a)).
  { rewrite Hw2. rewrite lookup_insert_ne by apply state_key_ne_data_key.
    apply lookup_insert_eq. }
  subst run ayahID. simpl fst.
  unfold HandleRecording, mbind, M_bind, wrap, lift, GetData, SetState, redis_io.
  rewrite (Hf (w_tick w2)) by lia. rewrite Hs.
  cbn -[Atoi Itoa SubmitRecording FormatAyahID].
  rewrite (Hf (S (w_tick w2))) by lia. rewrite Hy.
  cbn -[Atoi Itoa SubmitRecording FormatAyahID].
  rewrite !Atoi_Itoa by (unfold int64_min, int64_max in *; lia).
  destruct (SubmitRecording _ _ _ _ _ _) as [rec|msg];
    cbn -[Atoi Itoa SubmitRecording FormatAyahID].
  - rewrite (Hf (S (S (w_tick w2)))) by lia. simpl. split; reflexivity.
  - split; reflexivity.
Qed.

Definition gateway_accepts : string -> list nat -> HttpOutcome :=
  fun _ _ => HttpResponse 200 (Some {| sub_RecordingID := "r1"; sub_Status := "queued"; sub_TaskID := "t1" |}).

Lemma manual_flow_submission_witness :
  let w1 := snd (HandleSurahSelection (fun _ => false) two_surahs "42" 2 start_world) in
  let w2 := snd (HandleAyahInput (fun _ => false) two_surahs "42" "255" w1) in
  let ayahID := FormatAyahID 2 (fst (Atoi "255")) in
  let run := HandleRecording (fun _ => false) "https://api" gateway_accepts zero_time "42" [82%nat] w2 in
  match SubmitRecording "https://api" gateway_accepts zero_time "42" ayahID [82%nat] with
  | Ok rec => fst run = Ok rec /\
              w_redis (snd run) = <[state_key "42" := StateSelectSurah]> (w_redis w2)
  | Err e => fst run = Err ("submit recording: " +:+ e) /\ w_redis (snd run) = w_redis w2
  end.
Proof.
  intros w1 w2.
  apply (manual_flow_submission (fun _ => false) "https://api" gateway_accepts zero_time two_surahs
           "42" 2 "255" [82%nat] start_world w1 w2).
  - vm_compute. discriminate.
  - reflexivity.
  - reflexivity.
  - reflexivity.
Defined.

(** ** The digit keypad *)

Lemma string_substring_app_head (a b : string) :
  String.substring 0 (String.length a) (a +:+ b) = a.
Proof. induction a as [|c a IH]; simpl; [by destruct b|by rewrite IH]. Qed.

Lemma string_substring_full (b : string) : String.substring 0 (String.length b) b = b.
Proof. induction b as [|c b IH]; simpl; [reflexivity|by rewrite IH]. Qed.

Lemma string_substring_app_tail (a b : string) :
  String.substring (String.length a) (String.length (a +:+ b) - String.length a) (a +:+ b) = b.
Proof.
  rewrite string_length_app. replace (String.length a + String.length b - String.length a)%nat
    with (String.length b) by lia.
  induction a as [|c a IH]; simpl; [apply string_substring_full|exact IH].
Qed.

Lemma string_app_assoc (a b c : string) : a +:+ (b +:+ c) = (a +:+ b) +:+ c.
Proof.
  induction a as [|x a IH]; [reflexivity|].
  change (String x (a +:+ b +:+ c) = String x ((a +:+ b) +:+ c)). by rewrite IH.
Qed.

Lemma string_app_nil_r (a : string) : a +:+ "" = a.
Proof.
  induction a as [|x a IH]; [reflexivity|].
  change (String x (a +:+ "") = String x a). by rewrite IH.
Qed.

Lemma digit_presses_from fault surahs u ds w cur :
  (forall t, fault t = false) ->
  Forall (fun d => String.length d = 1%nat) ds ->
  w_redis w !! data_key u SessionKeyAyahInput = Some cur -> (String.length cur <= 3)%nat ->
  w_redis (fold_left (fun w d => snd (handleDigitInput fault surahs u d w)) ds w) =
    <[data_key u SessionKeyAyahInput :=
        cur +:+ fold_right String.append "" (take (3 - String.length cur) ds)]> (w_redis w).
Proof.
  intros Hf. revert w cur. induction ds as [|d ds IH]; intros w cur Hds Hcur Hlen; simpl.
  - rewrite take_nil. simpl. rewrite string_app_nil_r. by rewrite insert_id.
  - apply Forall_cons in Hds as [Hd Hds].
    pose proof (handleDigitInput_store fault surahs u d w (Hf _) (Hf _)) as Hs.
    simpl in Hs. rewrite Hcur in Hs. simpl in Hs.
    destruct (Nat.ltb_spec (String.length cur) 3) as [Hlt|Hge].
    + rewrite (IH _ (cur +:+ d)); [| exact Hds | rewrite Hs; apply lookup_insert_eq
                                  | rewrite string_length_app; lia].
      rewrite Hs, insert_insert_eq, string_length_app, Hd.
      replace (3 - String.length cur)%nat with (S (3 - (String.length cur + 1))) by lia.
      simpl. by rewrite string_app_assoc.
    + rewrite (IH _ cur); [| exact Hds | rewrite Hs; exact Hcur | exact Hlen].
      rewrite Hs. by replace (3 - String.length cur)%nat with 0%nat by lia.
Qed.

(** X4: from an empty keypad buffer (no buffer stored, or the empty
    string stored, as left by backspacing every digit), a sequence of
    digit presses (one-character payloads) served by the store leaves in
    the buffer the concatenation of the first three digits pressed; later
    presses are ignored and nothing else in the store changes. *)
Theorem digit_presses_keep_first_three fault surahs u ds w :
  (forall t, fault t = false) ->
  Forall (fun d => String.length d = 1%nat) ds -> ds <> [] ->
  default "" (w_redis w !! data_key u SessionKeyAyahInput) = "" ->
  w_redis (fold_left (fun w d => snd (handleDigitInput fault surahs u d w)) ds w) =
    <[data_key u SessionKeyAyahInput := fold_right String.append "" (take 3 ds)]> (w_redis w).
Proof.
  intros Hf Hds Hne Hempty.
  destruct (w_redis w !! data_key u SessionKeyAyahInput) as [cur|] eqn:Hcur.
  - simpl in Hempty. subst cur.
    rewrite (digit_presses_from fault surahs u ds w "" Hf Hds Hcur) by (simpl; lia).
    reflexivity.
  - destruct ds as [|d ds]; [contradiction|]. simpl.
    apply Forall_cons in Hds as [Hd Hds].
    pose proof (handleDigitInput_store fault surahs u d w (Hf _) (Hf _)) as Hs.
    simpl in Hs. rewrite Hcur in Hs. simpl in Hs.
    rewrite (digit_presses_from fault surahs u ds _ d Hf Hds); [| rewrite Hs; apply lookup_insert_eq | lia].
    rewrite Hs, insert_insert_eq, Hd. reflexivity.
Qed.

Definition cleared_buffer_world : World :=
  {| w_redis := <[data_key "42" SessionKeyAyahInput := ""]> (w_redis start_world); w_tick := 0 |}.

Lemma digit_presses_keep_first_three_witness :
  w_redis (fold_left (fun w d => snd (handleDigitInput (fun _ => false) two_surahs "42" d w))
             ["2"; "5"; "5"; "9"] cleared_buffer_world) =
    <[data_key "42" SessionKeyAyahInput := fold_right String.append "" (take 3 ["2"; "5"; "5"; "9"])]>
      (w_redis cleared_buffer_world).
Proof.
  apply (digit_presses_keep_first_three (fun _ => false) two_surahs "42" ["2"; "5"; "5"; "9"]
           cleared_buffer_world).
  - reflexivity.
  - repeat constructor.
  - discriminate.
  - vm_compute. reflexivity.
Defined.

Lemma handleClearDigit_store fault surahs u w :
  fault (w_tick w) = false -> fault (S (w_tick w)) = false ->
  let cur := default "" (w_redis w !! data_key u SessionKeyAyahInput) in
  w_redis (snd (handleClearDigit fault surahs u w)) =
    if Nat.ltb 0 (String.length cur)
    then <[data_key u SessionKeyAyahInput := String.substring 0 (String.length cur - 1) cur]> (w_redis w)
    else w_redis w.
Proof.
  intros H0 H1 cur. unfold handleClearDigit, mbind at 1 2, M_bind at 1 2.
  unfold GetAyahInput at 1, GetData at 1, redis_io at 1. rewrite H0.
  unfold cur. destruct (w_redis w !! data_key u SessionKeyAyahInput) as [v|]; simpl.
  - destruct (Nat.ltb 0 (String.length v)).
    + unfold mbind, M_bind at 1, SetAyahInput, SetData, redis_io at 1. simpl. rewrite H1. simpl.
      apply (handleDigitInput_tail fault surahs u {| w_redis := _; w_tick := _ |}).
    + apply (handleDigitInput_tail fault surahs u {| w_redis := _; w_tick := _ |}).
  - apply (handleDigitInput_tail fault surahs u {| w_redis := _; w_tick := _ |}).
Qed.

(** X5: a digit press followed by a backspace ([clear]), served by the
    store, restores the buffer read by [GetAyahInput] when it held fewer
    than three characters: the buffer key then holds the old value (the
    empty string when it was missing) and nothing else changes. *)
Theorem digit_then_clear_restores fault surahs u d w :
  (String.length d = 1)%nat ->
  (forall t, fault t = false) ->
  let cur := default "" (w_redis w !! data_key u SessionKeyAyahInput) in
  (String.length cur < 3)%nat ->
  w_redis (snd (handleClearDigit fault surahs u (snd (handleDigitInput fault surahs u d w))))
  = <[data_key u SessionKeyAyahInput := cur]> (w_redis w).
Proof.
  intros Hd Hf cur Hc.
  rewrite (handleClearDigit_store fault surahs u) by apply Hf.
  rewrite (handleDigitInput_store fault surahs u d w) by apply Hf. fold cur.
  assert (E : Nat.ltb (String.length cur) 3 = true) by (apply Nat.ltb_lt; exact Hc).
  rewrite E, lookup_insert_eq. simpl.
  rewrite string_length_app, Hd.
  replace (Nat.ltb 0 (String.length cur + 1)) with true by (symmetry; apply Nat.ltb_lt; lia).
  rewrite insert_insert_eq.
  replace (String.length cur + 1 - 1)%nat with (String.length cur) by lia.
  by rewrite string_substring_app_head.
Qed.

Lemma digit_then_clear_restores_witness :
  w_redis (snd (handleClearDigit (fun _ => false) two_surahs "42"
                  (snd (handleDigitInput (fun _ => false) two_surahs "42" "7" start_world))))
  = <[data_key "42" SessionKeyAyahInput := "12"]> (w_redis start_world).
Proof.
  apply (digit_then_clear_restores (fun _ => false) two_surahs "42" "7" start_world);
    [reflexivity|reflexivity|vm_compute; lia].
Defined.

Lemma DeleteData_store fault u k w :
  w_redis (snd (DeleteData fault u k w)) = w_redis w \/
  w_redis (snd (DeleteData fault u k w)) = delete (data_key u k) (w_redis w).
Proof. unfold DeleteData, redis_io. destruct (fault (w_tick w)); simpl; auto. Qed.

(** X6: whatever the store faults, the [done] button leaves the store in
    one of four states: unchanged; or, when the buffer holds a number
    [Atoi] accepts, with that number stored as the ayah, possibly with the
    state moved to [wait_recording], possibly also with the buffer
    deleted. It never writes anything else. *)
Theorem handleAyahDone_outcomes fault surahs u w :
  let m := w_redis w in
  let m' := w_redis (snd (handleAyahDone fault surahs u w)) in
  m' = m \/
  exists s, m !! data_key u SessionKeyAyahInput = Some s /\ snd (Atoi s) = None /\
    let m1 := <[data_key u SessionKeyAyah := Itoa (fst (Atoi s))]> m in
    let m2 := <[state_key u := StateWaitRecording]> m1 in
    (m' = m1 \/ m' = m2 \/ m' = delete (data_key u SessionKeyAyahInput) m2).
Proof.
  intros m m'. subst m m'.
  pose proof (GetAyahInput_redis fault u w) as Hr.
  pose proof (GetAyahInput_value fault u w) as Hv.
  unfold handleAyahDone, mbind, M_bind.
  destruct (GetAyahInput fault u w) as [[s|e] w1] eqn:G; simpl in Hr, Hv |- *.
  2:{ destruct Hv as [Hv|[v [Hv _]]]; discriminate. }
  destruct (String.eqb s "") eqn:Es.
  { left. by rewrite ignore_redis, GetSelectedSurah_redis. }
  assert (Hs : w_redis w !! data_key u SessionKeyAyahInput = Some s).
  { destruct Hv as [Hv|[v [Hv Hl]]]; inversion Hv; subst.
    - by rewrite String.eqb_refl in Es.
    - exact Hl. }
  pose proof (HandleAyahInput_store fault surahs u s w1) as Hh.
  destruct (HandleAyahInput fault surahs u s w1) as [[x|e] w2].
  - destruct Hh as [Ha Hw2]. right. exists s. split; [exact Hs|split; [exact Ha|]].
    rewrite <- Hr. unfold ignore.
    pose proof (DeleteData_store fault u SessionKeyAyahInput w2) as Hd.
    unfold ClearAyahInput. destruct (DeleteData fault u SessionKeyAyahInput w2) as [r w3].
    simpl in *. rewrite <- Hw2. destruct Hd as [Hd|Hd]; auto.
  - rewrite ignore_redis, GetSelectedSurah_redis.
    destruct Hh as [Hh|[Ha Hh]]; [left; congruence|].
    right. exists s. split; [exact Hs|split; [exact Ha|]]. left. congruence.
Qed.

(** ** Language callback and text messages *)

Lemma HandleStart_store fault u lang w :
  fault (w_tick w) = false -> fault (S (w_tick w)) = false ->
  w_redis (snd (HandleStart fault u lang w)) =
    <[data_key u SessionKeyLanguage := lang]> (<[state_key u := StateSelectSurah]> (w_redis w)).
Proof.
  intros H0 H1. unfold HandleStart, mbind, M_bind, wrap, SetState, SetData, redis_io.
  rewrite H0. simpl. rewrite H1. reflexivity.
Qed.

(** X7: the ["lang:" + code] callback, served by the store, stores any
    non-empty code verbatim (no check against the supported languages):
    [GetUserLanguage] then returns it, and the state is [select_surah]. *)
Theorem lang_callback_roundtrip fault u code w :
  (forall t, fault t = false) ->
  code <> "" ->
  let w' := snd (handleLangCallback fault u ("lang:" +:+ code) w) in
  fst (GetUserLanguage fault u w') = Ok code /\
  fst (GetCurrentState fault u w') = Ok StateSelectSurah.
Proof.
  intros Hf Hc w'.
  assert (Hw : w_redis w' =
    <[data_key u SessionKeyLanguage := code]> (<[state_key u := StateSelectSurah]> (w_redis w))).
  { subst w'. unfold handleLangCallback.
    pose proof (string_substring_app_tail "lang:" code) as E.
    change (String.length "lang:") with 5%nat in E. rewrite E. apply HandleStart_store; apply Hf. }
  unfold GetUserLanguage, GetCurrentState, GetState, GetData, redis_io.
  rewrite !Hf, Hw, lookup_insert_eq.
  rewrite lookup_insert_ne by (apply not_eq_sym, state_key_ne_data_key).
  rewrite lookup_insert_eq. simpl.
  destruct (String.eqb code "") eqn:E; [apply String.eqb_eq in E; contradiction|].
  split; reflexivity.
Qed.

Lemma lang_callback_roundtrip_witness :
  fst (GetUserLanguage (fun _ => false) "42"
         (snd (handleLangCallback (fun _ => false) "42" ("lang:" +:+ "xx") start_world))) = Ok "xx" /\
  fst (GetCurrentState (fun _ => false) "42"
         (snd (handleLangCallback (fun _ => false) "42" ("lang:" +:+ "xx") start_world))) = Ok StateSelectSurah.
Proof.
  apply (lang_callback_roundtrip (fun _ => false) "42" "xx" start_world);
    [reflexivity|discriminate].
Defined.

(** X8: a text message sent when the user's stored state is not
    [enter_ayah] never changes the store; the reply is the help message,
    or the generic error when the state read fails. *)
Theorem handleText_outside_enter_ayah fault surahs u text w :
  w_redis w !! state_key u <> Some StateEnterAyah ->
  w_redis (snd (handleText fault surahs u text w)) = w_redis w /\
  (fst (handleText fault surahs u text w) = Ok "help.message" \/
   fst (handleText fault surahs u text w) = Ok "error.generic").
Proof.
  intros Hs. unfold handleText, GetCurrentState, GetState, redis_io.
  destruct (fault (w_tick w)); simpl; [auto|].
  destruct (w_redis w !! state_key u) as [st|] eqn:E; simpl.
  - destruct (String.eqb st StateEnterAyah) eqn:Est; simpl; [|auto].
    apply String.eqb_eq in Est; subst. contradiction.
  - auto.
Qed.

Lemma handleText_outside_enter_ayah_witness :
  w_redis (snd (handleText (fun _ => false) two_surahs "42" "12" start_world)) = w_redis start_world /\
  (fst (handleText (fun _ => false) two_surahs "42" "12" start_world) = Ok "help.message" \/
   fst (handleText (fun _ => false) two_surahs "42" "12" start_world) = Ok "error.generic").
Proof.
  apply (handleText_outside_enter_ayah (fun _ => false) two_surahs "42" "12" start_world).
  vm_compute. discriminate.
Defined.

(** ** The surah keyboard *)

Lemma go_index_in_bounds {A} (xs : list A) (i : Z) :
  0 <= i < Z.of_nat (length xs) ->
  exists x, go_index xs i = Some x /\ xs !! Z.to_nat i = Some x /\
            drop (Z.to_nat i) xs = x :: drop (Z.to_nat (i + 1)) xs.
Proof.
  intros Hi. unfold go_index.
  assert (Hc : ((0 <=? i) && (i <? Z.of_nat (length xs))) = true).
  { apply andb_true_intro. split; [apply Z.leb_le|apply Z.ltb_lt]; lia. }
  rewrite Hc.
  destruct (lookup_lt_is_Some_2 xs (Z.to_nat i)) as [x Hx]; [lia|].
  exists x. split; [exact Hx|split; [exact Hx|]].
  rewrite (drop_S xs x (Z.to_nat i) Hx). by replace (Z.to_nat (i + 1)) with (S (Z.to_nat i)) by lia.
Qed.

Lemma surah_rows_in_bounds surahName surahs fuel i end_ :
  0 <= i -> end_ <= Z.of_nat (length surahs) -> end_ - i <= 2 * Z.of_nat fuel ->
  exists rows, surah_rows surahName surahs fuel i end_ = Some rows /\
    concat rows = map (surah_button surahName) (take (Z.to_nat (end_ - i)) (drop (Z.to_nat i) surahs)) /\
    Forall (fun r => 1 <= length r <= 2)%nat rows.
Proof.
  revert i. induction fuel as [|f IH]; intros i Hi He Hf; simpl.
  { exists []. replace (Z.to_nat (end_ - i)) with 0%nat by lia. simpl. auto. }
  destruct (Z.ltb_spec i end_) as [Hlt|Hge].
  2:{ exists []. replace (Z.to_nat (end_ - i)) with 0%nat by lia. simpl. auto. }
  destruct (go_index_in_bounds surahs i) as [s1 [G1 [_ D1]]]; [lia|]. rewrite G1.
  destruct (Z.ltb_spec (i + 1) end_) as [Hlt2|Hge2].
  - destruct (go_index_in_bounds surahs (i + 1)) as [s2 [G2 [_ D2]]]; [lia|]. rewrite G2.
    destruct (IH (i + 2)) as [rows [Hr [Hc Hl]]]; [lia|lia|lia|].
    rewrite Hr. simpl. eexists; split; [reflexivity|]. split.
    + simpl. rewrite Hc, D1, D2.
      replace (Z.to_nat (end_ - i)) with (S (S (Z.to_nat (end_ - (i + 2))))) by lia.
      by replace (i + 1 + 1) with (i + 2) by lia.
    + constructor; [simpl; lia|exact Hl].
  - destruct (IH (i + 2)) as [rows [Hr [Hc Hl]]]; [lia|lia|lia|].
    rewrite Hr. simpl. eexists; split; [reflexivity|]. split.
    + simpl. rewrite Hc, D1.
      replace (Z.to_nat (end_ - i)) with 1%nat by lia.
      by replace (Z.to_nat (end_ - (i + 2))) with 0%nat by lia.
    + constructor; [simpl; lia|exact Hl].
Qed.

Lemma surah_page_bounds_nonempty n page :
  0 < n ->
  let '(totalPages, page', start, end_) := surah_page_bounds n page in
  0 <= page' < totalPages /\ start = page' * 10 /\ start < end_ <= n /\ end_ - start <= 10 /\
  (end_ = n \/ end_ = start + 10) /\ 10 * (totalPages - 1) < n <= 10 * totalPages.
Proof.
  intros Hn. unfold surah_page_bounds, surahsPerPage.
  set (tp := Z.quot (n + 10 - 1) 10).
  assert (Htp : 1 <= tp /\ 10 * (tp - 1) < n <= 10 * tp).
  { unfold tp. rewrite Z.quot_div_nonneg by lia.
    pose proof (Z.div_mod (n + 10 - 1) 10). pose proof (Z.mod_pos_bound (n + 10 - 1) 10). lia. }
  set (p1 := if page <? 0 then 0 else page).
  assert (Hp1 : 0 <= p1) by (unfold p1; destruct (Z.ltb_spec page 0); lia).
  set (p2 := if tp <=? p1 then tp - 1 else p1).
  assert (Hp2 : 0 <= p2 < tp) by (unfold p2; destruct (Z.leb_spec tp p1); lia).
  destruct (Z.ltb_spec n (p2 * 10 + 10)); lia.
Qed.

(** X9: for a non-empty surah table and any page, the surah keyboard
    never panics: the page is clamped into range, the surah rows hold one
    or two buttons each and list, in order, exactly the surahs from
    [start] to [end] of the clamped page, followed by the navigation row. *)
Theorem getSurahKeyboard_layout tr surahName surahs page :
  surahs <> [] ->
  let '(totalPages, page', start, end_) := surah_page_bounds (Z.of_nat (length surahs)) page in
  0 <= page' < totalPages /\
  exists rows,
    getSurahKeyboard tr surahName surahs page = Some (rows ++ nav_row tr "spage:" page' totalPages) /\
    concat rows = map (surah_button surahName)
                    (take (Z.to_nat (end_ - start)) (drop (Z.to_nat start) surahs)) /\
    Forall (fun r => 1 <= length r <= 2)%nat rows.
Proof.
  intros Hne.
  assert (Hn : 0 < Z.of_nat (length surahs)) by (destruct surahs; [done|simpl; lia]).
  pose proof (surah_page_bounds_nonempty _ page Hn) as Hb.
  unfold getSurahKeyboard.
  destruct (surah_page_bounds (Z.of_nat (length surahs)) page) as [[[tp p] st] en].
  destruct Hb as [Hp [Hst [Hse [H10 _]]]].
  split; [exact Hp|].
  destruct (surah_rows_in_bounds surahName surahs (Z.to_nat (en - st)) st en) as [rows [Hr [Hc Hl]]];
    [lia|lia|lia|].
  rewrite Hr. eauto.
Qed.

Definition numbered_surahs : list Surah :=
  map (fun k => {| Number := Z.of_nat k + 1; Name := "s"; Ayahs := 3 |}) (seq 0 23).

Lemma getSurahKeyboard_layout_witness :
  let '(totalPages, page', start, end_) := surah_page_bounds (Z.of_nat (length numbered_surahs)) 7 in
  0 <= page' < totalPages /\
  exists rows,
    getSurahKeyboard (fun k => k) (fun _ => "s") numbered_surahs 7 =
      Some (rows ++ nav_row (fun k => k) "spage:" page' totalPages) /\
    concat rows = map (surah_button (fun _ => "s"))
                    (take (Z.to_nat (end_ - start)) (drop (Z.to_nat start) numbered_surahs)) /\
    Forall (fun r => 1 <= length r <= 2)%nat rows.
Proof. apply (getSurahKeyboard_layout (fun k => k) (fun _ => "s") numbered_surahs 7). discriminate. Defined.

(** X10: every surah of the table has its button on the keyboard page
    [j / 10], [j] its index in the table. *)
Theorem getSurahKeyboard_lists_every_surah tr surahName surahs j s :
  surahs !! j = Some s ->
  exists rows, getSurahKeyboard tr surahName surahs (Z.of_nat j / 10) = Some rows /\
    surah_button surahName s ∈ concat rows.
Proof.
  intros Hj.
  pose proof (lookup_lt_Some _ _ _ Hj) as Hlt.
  assert (Hne : surahs <> []) by (destruct surahs; [simpl in Hlt; lia|done]).
  pose proof (getSurahKeyboard_layout tr surahName surahs (Z.of_nat j / 10) Hne) as Hl.
  assert (Hn : 0 < Z.of_nat (length surahs)) by lia.
  pose proof (surah_page_bounds_nonempty _ (Z.of_nat j / 10) Hn) as Hb.
  assert (Hd : 10 * (Z.of_nat j / 10) <= Z.of_nat j < 10 * (Z.of_nat j / 10) + 10).
  { pose proof (Z.div_mod (Z.of_nat j) 10). pose proof (Z.mod_pos_bound (Z.of_nat j) 10). lia. }
  assert (Hq : 0 <= Z.of_nat j / 10) by (apply Z.div_pos; lia).
  unfold surah_page_bounds, surahsPerPage in Hb, Hl |- *.
  set (tp := Z.quot (Z.of_nat (length surahs) + 10 - 1) 10) in *.
  destruct (Z.ltb_spec (Z.of_nat j / 10) 0); [lia|].
  destruct (Z.leb_spec tp (Z.of_nat j / 10)).
  { destruct Hb as [_ [_ [_ [_ [_ Htp]]]]]. lia. }
  set (en := if Z.of_nat (length surahs) <? Z.of_nat j / 10 * 10 + 10
             then Z.of_nat (length surahs) else Z.of_nat j / 10 * 10 + 10) in *.
  destruct Hb as [_ [_ [Hse [_ [Hen _]]]]].
  destruct Hl as [_ [rows [Hk [Hc _]]]].
  eexists; split; [exact Hk|].
  rewrite concat_app. apply elem_of_app. left. rewrite Hc.
  apply list_elem_of_In, in_map, list_elem_of_In. apply list_elem_of_lookup_2 with (j - Z.to_nat (Z.of_nat j / 10 * 10))%nat.
  rewrite lookup_take_lt by lia. rewrite lookup_drop.
  by replace (Z.to_nat (Z.of_nat j / 10 * 10) + (j - Z.to_nat (Z.of_nat j / 10 * 10)))%nat with j by lia.
Qed.

Lemma getSurahKeyboard_lists_every_surah_witness :
  exists rows, getSurahKeyboard (fun k => k) (fun _ => "s") numbered_surahs (Z.of_nat 13 / 10) = Some rows /\
    surah_button (fun _ => "s") {| Number := 14; Name := "s"; Ayahs := 3 |} ∈ concat rows.
Proof. apply (getSurahKeyboard_lists_every_surah (fun k => k) (fun _ => "s") numbered_surahs 13). reflexivity. Defined.

(** X11: for a page in range, every button of a navigation row is the
    [noop] page counter or points to the previous or next page, which is
    in range and which [strconv.Atoi] parses back from the callback data. *)
Theorem nav_row_targets tr prefix page totalPages b :
  0 <= page < totalPages -> totalPages <= int64_max ->
  b ∈ concat (nav_row tr prefix page totalPages) ->
  snd b = "noop" \/
  exists q, snd b = prefix +:+ Itoa q /\ Atoi (Itoa q) = (q, None) /\
            0 <= q < totalPages /\ (q = page - 1 \/ q = page + 1).
Proof.
  intros Hp Hmax Hb. unfold nav_row in Hb.
  destruct (1 <? totalPages); [|by apply elem_of_nil in Hb].
  simpl in Hb. rewrite app_nil_r in Hb.
  apply elem_of_app in Hb as [Hb|Hb]; [|apply elem_of_cons in Hb as [Hb|Hb]].
  - destruct (Z.ltb_spec 0 page); [|by apply elem_of_nil in Hb].
    apply list_elem_of_singleton in Hb. subst b. right. exists (page - 1).
    split; [reflexivity|]. split; [apply Atoi_Itoa; unfold int64_min, int64_max in *; lia|lia].
  - subst b. by left.
  - destruct (Z.ltb_spec page (totalPages - 1)); [|by apply elem_of_nil in Hb].
    apply list_elem_of_singleton in Hb. subst b. right. exists (page + 1).
    split; [reflexivity|]. split; [apply Atoi_Itoa; unfold int64_min, int64_max in *; lia|lia].
Qed.

Lemma nav_row_targets_witness :
  snd ("⬅️ nav.prev", "spage:" +:+ Itoa 1) = "noop" \/
  exists q, snd ("⬅️ nav.prev", "spage:" +:+ Itoa 1) = "spage:" +:+ Itoa q /\ Atoi (Itoa q) = (q, None) /\
            0 <= q < 3 /\ (q = 2 - 1 \/ q = 2 + 1).
Proof.
  apply (nav_row_targets (fun k => k) "spage:" 2 3).
  - lia.
  - vm_compute. discriminate.
  - simpl. apply elem_of_cons. left. reflexivity.
Defined.

Lemma handleSurahCallback_store fault surahs u n w :
  (forall t, fault t = false) ->
  1 <= n <= Z.of_nat (length surahs) -> Z.of_nat (length surahs) <= int64_max ->
  fst (handleSurahCallback fault surahs u (Itoa n) w) = Ok tt /\
  w_redis (snd (handleSurahCallback fault surahs u (Itoa n) w)) =
    delete (data_key u SessionKeyAyahInput)
      (<[state_key u := StateEnterAyah]> (<[data_key u SessionKeySurah := Itoa n]> (w_redis w))).
Proof.
  intros Hf Hn Hmax.
  unfold handleSurahCallback. rewrite Atoi_Itoa by (unfold int64_min, int64_max in *; lia).
  unfold mbind, M_bind.
  destruct (HandleSurahSelection fault surahs u n w) as [[[]|e] w1] eqn:Hs.
  - apply HandleSurahSelection_Ok in Hs as [_ Hw1].
    unfold ignore, ClearAyahInput, DeleteData, redis_io. rewrite Hf. simpl.
    rewrite Hw1. split; reflexivity.
  - exfalso. revert Hs. unfold HandleSurahSelection.
    destruct ((n <? 1) || (Z.of_nat (length surahs) <? n)) eqn:Hr.
    + apply orb_true_iff in Hr as [Hr|Hr]; apply Z.ltb_lt in Hr; lia.
    + unfold mbind, M_bind, wrap, SetData, SetState, redis_io. rewrite !Hf. discriminate.
Qed.

(** X12: on a table numbered in order (entry [i] has number [i + 1]),
    the callback data of every surah button starts with ["surah:"], and the
    handler of that callback, served by the store, selects exactly that
    surah: [GetSelectedSurah] returns its number and the state is
    [enter_ayah]. *)
Theorem surah_button_selects fault surahName surahs u s w :
  (forall t, fault t = false) ->
  Z.of_nat (length surahs) <= int64_max ->
  (forall i x, surahs !! i = Some x -> Number x = Z.of_nat i + 1) ->
  s ∈ surahs ->
  let data := snd (surah_button surahName s) in
  let arg := String.substring 6 (String.length data - 6) data in
  String.substring 0 6 data = "surah:" /\
  fst (handleSurahCallback fault surahs u arg w) = Ok tt /\
  fst (GetSelectedSurah fault u (snd (handleSurahCallback fault surahs u arg w))) = Ok (Number s) /\
  fst (GetCurrentState fault u (snd (handleSurahCallback fault surahs u arg w))) = Ok StateEnterAyah.
Proof.
  intros Hf Hmax Hnum Hs data arg.
  apply list_elem_of_lookup_1 in Hs as [i Hi].
  pose proof (lookup_lt_Some _ _ _ Hi) as Hlt. apply Hnum in Hi.
  assert (Harg : arg = Itoa (Number s)).
  { subst arg data. simpl.
    pose proof (string_substring_app_tail "surah:" (Itoa (Number s))) as E.
    change (String.length "surah:") with 6%nat in E. exact E. }
  assert (Hpre : String.substring 0 6 data = "surah:").
  { subst data. simpl. exact (string_substring_app_head "surah:" (Itoa (Number s))). }
  rewrite Harg.
  destruct (handleSurahCallback_store fault surahs u (Number s) w Hf) as [Hok Hw]; [lia|lia|].
  split; [exact Hpre|]. split; [exact Hok|].
  unfold GetSelectedSurah, GetCurrentState, GetState, GetData, wrap, mbind, M_bind, redis_io.
  rewrite !Hf, Hw.
  rewrite lookup_delete_ne by (apply data_key_ne_pair;
    [apply session_keys_in_ayah_input|apply session_keys_in_surah|right; discriminate]).
  rewrite lookup_insert_ne by apply state_key_ne_data_key.
  rewrite lookup_insert_eq.
  rewrite lookup_delete_ne by (apply not_eq_sym, state_key_ne_data_key).
  rewrite lookup_insert_eq.
  cbn -[Atoi Itoa].
  rewrite Atoi_Itoa by (unfold int64_min, int64_max in *; lia).
  split; reflexivity.
Qed.

Lemma two_surahs_numbered i x : two_surahs !! i = Some x -> Number x = Z.of_nat i + 1.
Proof. destruct i as [|[|i]]; simpl; intros H; inversion H; reflexivity. Qed.

Lemma surah_button_selects_witness :
  let data := snd (surah_button (fun _ => "s") {| Number := 2; Name := "Al-Baqarah"; Ayahs := 286 |}) in
  let arg := String.substring 6 (String.length data - 6) data in
  String.substring 0 6 data = "surah:" /\
  fst (handleSurahCallback (fun _ => false) two_surahs "42" arg start_world) = Ok tt /\
  fst (GetSelectedSurah (fun _ => false) "42" (snd (handleSurahCallback (fun _ => false) two_surahs "42" arg start_world))) = Ok 2 /\
  fst (GetCurrentState (fun _ => false) "42" (snd (handleSurahCallback (fun _ => false) two_surahs "42" arg start_world))) = Ok StateEnterAyah.
Proof.
  apply (surah_button_selects (fun _ => false) (fun _ => "s") two_surahs "42"
           {| Number := 2; Name := "Al-Baqarah"; Ayahs := 286 |} start_world).
  - reflexivity.
  - vm_compute. discriminate.
  - apply two_surahs_numbered.
  - apply elem_of_cons. right. apply elem_of_cons. left. reflexivity.
Defined.

(** ** The recordings list *)

Lemma pages_concat {A} (xs : list A) (s k : nat) :
  (length xs <= 5 * (s + k))%nat ->
  concat (map (fun p => take 5 (drop (5 * p) xs)) (seq s k)) = drop (5 * s) xs.
Proof.
  revert s. induction k as [|k IH]; intros s Hl; simpl.
  - symmetry. apply drop_ge. lia.
  - rewrite IH by lia.
    transitivity (take 5 (drop (5 * s) xs) ++ drop 5 (drop (5 * s) xs)); [|apply take_drop].
    rewrite drop_drop. by replace (5 * s + 5)%nat with (5 * S s)%nat by lia.
Qed.

Lemma formatRecordingsList_page {A} (recordings : list A) (p : nat) :
  (0 < length recordings)%nat ->
  (5 * p < length recordings)%nat ->
  exists page' totalPages,
    formatRecordingsList recordings (Z.of_nat p) =
      Some (take 5 (drop (5 * p) recordings), page', totalPages).
Proof.
  intros Hn Hp.
  pose proof (formatRecordingsList_nonempty recordings (Z.of_nat p) Hn) as H.
  unfold page_bounds, itemsPerPage in H |- *.
  set (n := Z.of_nat (length recordings)) in *.
  set (tp := Z.quot (n + 5 - 1) 5) in *.
  assert (Htp : 10 * 0 + 5 * (tp - 1) < n <= 5 * tp).
  { unfold tp. rewrite Z.quot_div_nonneg by lia.
    pose proof (Z.div_mod (n + 5 - 1) 5). pose proof (Z.mod_pos_bound (n + 5 - 1) 5). lia. }
  destruct (Z.ltb_spec (Z.of_nat p) 0); [lia|].
  destruct (Z.leb_spec tp (Z.of_nat p)); [lia|].
  destruct H as [_ [_ [_ H]]]. rewrite H. do 2 eexists. do 2 f_equal.
  replace (Z.to_nat (Z.of_nat p * 5)) with (5 * p)%nat by lia.
  destruct (Z.ltb_spec n (Z.of_nat p * 5 + 5)).
  - rewrite !take_ge; [reflexivity| |]; rewrite length_drop; lia.
  - by replace (Z.to_nat (Z.of_nat p * 5 + 5 - Z.of_nat p * 5)) with 5%nat by lia.
Qed.

(** X13: for a non-empty recordings list, the pages [0] to
    [totalPages - 1] of the recordings list show every recording exactly
    once, in order. *)
Theorem formatRecordingsList_pages_partition {A} (recordings : list A) :
  recordings <> [] ->
  let totalPages := Z.quot (Z.of_nat (length recordings) + itemsPerPage - 1) itemsPerPage in
  concat (map (fun p => match formatRecordingsList recordings (Z.of_nat p) with
                        | Some (shown, _, _) => shown
                        | None => []
                        end) (seq 0 (Z.to_nat totalPages))) = recordings.
Proof.
  intros Hne totalPages.
  assert (Hn : (0 < length recordings)%nat) by (destruct recordings; [done|simpl; lia]).
  assert (Htp : 5 * (totalPages - 1) < Z.of_nat (length recordings) <= 5 * totalPages).
  { unfold totalPages, itemsPerPage. rewrite Z.quot_div_nonneg by lia.
    pose proof (Z.div_mod (Z.of_nat (length recordings) + 5 - 1) 5).
    pose proof (Z.mod_pos_bound (Z.of_nat (length recordings) + 5 - 1) 5). lia. }
  transitivity (drop (5 * 0) recordings); [|reflexivity].
  rewrite <- (pages_concat recordings 0 (Z.to_nat totalPages)) by lia.
  f_equal. apply map_ext_in. intros p Hp. apply in_seq in Hp.
  destruct (formatRecordingsList_page recordings p Hn) as [pg [tp E]]; [lia|].
  by rewrite E.
Qed.

Lemma formatRecordingsList_pages_partition_witness :
  concat (map (fun p => match formatRecordingsList (seq 0 7) (Z.of_nat p) with
                        | Some (shown, _, _) => shown
                        | None => []
                        end) (seq 0 (Z.to_nat (Z.quot (Z.of_nat (length (seq 0 7)) + itemsPerPage - 1) itemsPerPage)))) = seq 0 7.
Proof. apply (formatRecordingsList_pages_partition (seq 0 7)). discriminate. Defined.

Lemma page_bounds_nonempty n page :
  0 < n ->
  let '(totalPages, page', start, end_) := page_bounds n page in
  0 <= page' < totalPages /\ start = page' * 5 /\ start < end_ <= n /\ end_ - start <= 5.
Proof.
  intros Hn. unfold page_bounds, itemsPerPage.
  set (tp := Z.quot (n + 5 - 1) 5).
  assert (Htp : 1 <= tp /\ 5 * (tp - 1) < n <= 5 * tp).
  { unfold tp. rewrite Z.quot_div_nonneg by lia.
    pose proof (Z.div_mod (n + 5 - 1) 5). pose proof (Z.mod_pos_bound (n + 5 - 1) 5). lia. }
  set (p1 := if page <? 0 then 0 else page).
  assert (Hp1 : 0 <= p1) by (unfold p1; destruct (Z.ltb_spec page 0); lia).
  set (p2 := if tp <=? p1 then tp - 1 else p1).
  assert (Hp2 : 0 <= p2 < tp) by (unfold p2; destruct (Z.leb_spec tp p1); lia).
  destruct (Z.ltb_spec n (p2 * 5 + 5)); lia.
Qed.

(** X14: for a non-empty recordings list, the recordings list message
    never panics: the page shows one to five recordings (the slice from
    [start] to [end] of the clamped page), one row per recording whose
    button opens ["viewrec:" + ID], then the navigation row and the
    new-recording button. *)
Theorem formatRecordingsListView_layout tr surahName fmt_date recordings page :
  recordings <> [] ->
  let '(totalPages, page', start, end_) := page_bounds (Z.of_nat (length recordings)) page in
  let shown := take (Z.to_nat (end_ - start)) (drop (Z.to_nat start) recordings) in
  (1 <= length shown <= 5)%nat /\ 0 <= page' < totalPages /\
  exists text,
    formatRecordingsListView tr surahName fmt_date recordings page =
      Some (text, map (fun r => [recording_button surahName fmt_date r]) shown ++
                  nav_row tr "recpage:" page' totalPages ++
                  [[("➕ " +:+ tr "recording.new", "newrecord")]]) /\
    Forall (fun r => snd (recording_button surahName fmt_date r) = "viewrec:" +:+ ID r) shown.
Proof.
  intros Hne.
  assert (Hn : (0 < length recordings)%nat) by (destruct recordings; [done|simpl; lia]).
  pose proof (page_bounds_nonempty (Z.of_nat (length recordings)) page ltac:(lia)) as Hb.
  unfold formatRecordingsListView.
  destruct (page_bounds (Z.of_nat (length recordings)) page) as [[[tp p] st] en].
  destruct Hb as [Hp [Hst [Hse Hk]]].
  rewrite index_loop_in_bounds by lia.
  split.
  { rewrite length_take, length_drop. lia. }
  split; [exact Hp|]. eexists. split; [reflexivity|].
  apply Forall_forall. intros r _. unfold recording_button.
  destruct (parseAyahID (rec_AyahID r)). reflexivity.
Qed.

Definition sample_recordings : list Recording :=
  map (fun k => {| ID := "rec" +:+ Itoa (Z.of_nat k); LearnerID := "42"; rec_AyahID := "001001";
                   rec_Status := "done"; Result := None; CreatedAt := 0; UpdatedAt := 0 |})
      (seq 0 7).

Lemma formatRecordingsListView_layout_witness :
  let '(totalPages, page', start, end_) := page_bounds (Z.of_nat (length sample_recordings)) 1 in
  let shown := take (Z.to_nat (end_ - start)) (drop (Z.to_nat start) sample_recordings) in
  (1 <= length shown <= 5)%nat /\ 0 <= page' < totalPages /\
  exists text,
    formatRecordingsListView (fun k => k) (fun _ => "s") (fun _ => "d") sample_recordings 1 =
      Some (text, map (fun r => [recording_button (fun _ => "s") (fun _ => "d") r]) shown ++
                  nav_row (fun k => k) "recpage:" page' totalPages ++
                  [[("➕ " +:+ "recording.new", "newrecord")]]) /\
    Forall (fun r => snd (recording_button (fun _ => "s") (fun _ => "d") r) = "viewrec:" +:+ ID r) shown.
Proof.
  apply (formatRecordingsListView_layout (fun k => k) (fun _ => "s") (fun _ => "d") sample_recordings 1).
  discriminate.
Defined.

(** ** Surah names *)

(** X15: [GetSurahName] never panics. It gives the name from the
    language's table when the number is in its range, else from the
    English table when in range there, else ["Surah " + n]. *)
Theorem GetSurahName_fallback i lang n :
  let names k := default [] (i18n_surahs i !! k) in
  let in_range (l : list string) := 1 <= n <= Z.of_nat (length l) in
  is_Some (GetSurahName i lang n) /\
  (in_range (names lang) -> GetSurahName i lang n = names lang !! Z.to_nat (n - 1)) /\
  (~ in_range (names lang) -> in_range (names LangEnglish) ->
     GetSurahName i lang n = names LangEnglish !! Z.to_nat (n - 1)) /\
  (~ in_range (names lang) -> ~ in_range (names LangEnglish) ->
     GetSurahName i lang n = Some ("Surah " +:+ Itoa n)).
Proof.
  intros names in_range.
  assert (Hr : forall l, (n <? 1) || (Z.of_nat (length l) <? n) = false <-> in_range l).
  { intros l. unfold in_range. rewrite orb_false_iff, !Z.ltb_ge. lia. }
  assert (Hg : forall l, in_range l -> go_index l (n - 1) = l !! Z.to_nat (n - 1)).
  { intros l Hl. unfold go_index, in_range in *.
    replace ((0 <=? n - 1) && (n - 1 <? Z.of_nat (length l))) with true; [reflexivity|].
    symmetry. apply andb_true_intro. split; [apply Z.leb_le|apply Z.ltb_lt]; lia. }
  assert (Hs : forall l, in_range l -> is_Some (l !! Z.to_nat (n - 1))).
  { intros l Hl. apply lookup_lt_is_Some_2. unfold in_range in Hl. lia. }
  assert (Hsel : GetSurahName i lang n =
    let l := if (n <? 1) || (Z.of_nat (length (names lang)) <? n) then names LangEnglish
             else names lang in
    if (n <? 1) || (Z.of_nat (length l) <? n) then Some ("Surah " +:+ Itoa n)
    else go_index l (n - 1)).
  { unfold GetSurahName, names. destruct (i18n_surahs i !! lang) as [l|]; simpl; [reflexivity|].
    change (Z.of_nat 0) with 0.
    replace ((n <? 1) || (0 <? n)) with true; [reflexivity|].
    destruct (Z.ltb_spec n 1); destruct (Z.ltb_spec 0 n); simpl; try reflexivity; lia. }
  rewrite Hsel. simpl.
  destruct ((n <? 1) || (Z.of_nat (length (names lang)) <? n)) eqn:El.
  - assert (Nl : ~ in_range (names lang)) by (rewrite <- Hr, El; discriminate).
    destruct ((n <? 1) || (Z.of_nat (length (names LangEnglish)) <? n)) eqn:Ee.
    + assert (Ne : ~ in_range (names LangEnglish)) by (rewrite <- Hr, Ee; discriminate).
      split; [eauto|]. split; [contradiction|]. split; [intros _ ?; contradiction|auto].
    + apply Hr in Ee. rewrite Hg by exact Ee.
      split; [by apply Hs|]. split; [contradiction|]. split; [auto|intros _ ?; contradiction].
  - pose proof El as El'. apply Hr in El'. cbv zeta. rewrite El, Hg by exact El'.
    split; [by apply Hs|]. split; [auto|]. split; intros ?; contradiction.
Qed.
